(** * pdf-transform: page-text filtering and segmentation pipeline

    A shallow embedding of [pdf_extractor.py] (flat extractor, positional
    header/footer band) and [custom_pdf_extractor.py] (segmented extractor,
    keyword footer filter, title/author heading detection), followed by the
    properties of the pipeline.

    Python [str] values are sequences of Unicode code points, so a string is
    a [list N]; [len] is [length].  The pdfplumber objects are external: a
    page is a record giving what each of its calls returns or raises. *)

From Stdlib Require Import String Ascii.
From Stdlib Require Import List NArith QArith Bool Arith Lia.
Import ListNotations.
Close Scope Q_scope.

(** ** Python strings *)

Module PyStr.

Definition char := N.
Definition str := list char.

(** ASCII literals, for readable examples. *)
Definition lit (s : string) : str := map N_of_ascii (list_ascii_of_string s).
Arguments lit s%_string.

Definition space : char := 32%N.
Definition newline : char := 10%N.

(** [str.isspace] on one code point; the same class is [\s] of [re] on
    [str] patterns and what [str.strip()] removes. *)
Definition isspace (c : char) : bool :=
  ((9 <=? c) && (c <=? 13) || (28 <=? c) && (c <=? 32) || (c =? 133)
   || (c =? 160) || (c =? 5760) || (8192 <=? c) && (c <=? 8202)
   || (c =? 8232) || (c =? 8233) || (c =? 8239) || (c =? 8287)
   || (c =? 12288))%N.

(** [s.split('\n')]: always at least one piece. *)
Fixpoint split_nl (s : str) : list str :=
  match s with
  | [] => [[]]
  | c :: t =>
      if (c =? newline)%N then [] :: split_nl t
      else match split_nl t with
           | [] => [[c]]
           | l :: ls => (c :: l) :: ls
           end
  end.

(** [sep.join(ls)] *)
Fixpoint join (sep : str) (ls : list str) : str :=
  match ls with
  | [] => []
  | l :: rest =>
      match rest with
      | [] => l
      | _ :: _ => l ++ sep ++ join sep rest
      end
  end.

(** [s.lstrip()], [s.rstrip()], [s.strip()] *)
Fixpoint lstrip (s : str) : str :=
  match s with
  | [] => []
  | c :: t => if isspace c then lstrip t else s
  end.

Fixpoint rstrip (s : str) : str :=
  match s with
  | [] => []
  | c :: t =>
      match rstrip t with
      | [] => if isspace c then [] else [c]
      | r => c :: r
      end
  end.

Definition strip (s : str) : str := rstrip (lstrip s).

(** [m in s] for strings: [m] occurs as a contiguous substring. *)
Fixpoint startswith (m s : str) : bool :=
  match m, s with
  | [], _ => true
  | _ :: _, [] => false
  | a :: m', b :: s' => (a =? b)%N && startswith m' s'
  end.

Fixpoint contains (m s : str) : bool :=
  startswith m s ||
  match s with
  | [] => false
  | _ :: t => contains m t
  end.

(** [re.sub(r'\s+', ' ', s)]: every maximal run of whitespace becomes one
    space.  [in_run] tells that the previous character was whitespace, so
    the run's space has been emitted already. *)
Fixpoint sub_ws_from (in_run : bool) (s : str) : str :=
  match s with
  | [] => []
  | c :: t =>
      if isspace c
      then (if in_run then sub_ws_from true t else space :: sub_ws_from true t)
      else c :: sub_ws_from false t
  end.

Definition sub_ws (s : str) : str := sub_ws_from false s.

(** The two lines shared by both extractors:
    [page_text = ' '.join(filtered_lines)]
    [page_text = re.sub(r'\s+', ' ', page_text).strip()] *)
Definition normalize (filtered_lines : list str) : str :=
  strip (sub_ws (join [space] filtered_lines)).

(** Truthiness of a string and of a list. *)
Definition truthy {A} (l : list A) : bool :=
  match l with [] => false | _ :: _ => true end.

Definition str_eqb (a b : str) : bool :=
  if list_eq_dec N.eq_dec a b then true else false.

End PyStr.

Import PyStr.

(** ** Exceptions *)

Inductive exn :=
| KeyError (key : str)
| LibraryError.

Inductive result (A : Type) :=
| Ok (a : A)
| Raise (e : exn).
Arguments Ok {A} a.
Arguments Raise {A} e.

Definition bind {A B} (r : result A) (k : A -> result B) : result B :=
  match r with
  | Ok a => k a
  | Raise e => Raise e
  end.

Notation "'let*' x ':=' r 'in' k" := (bind r (fun x => k))
  (at level 10, x name, r at level 100, k at level 200).

(** [try: body  except Exception: fallback]: the handlers of this program
    never look at the exception and never raise themselves. *)
Definition try_except {A} (body : result A) (fallback : A) : A :=
  match body with
  | Ok a => a
  | Raise _ => fallback
  end.

(** ** Python dicts with [str] keys

    A dict iterates in insertion order, which fixes the order of the output
    files, so it is kept as an association list with distinct keys. *)

Module Dict.

Section Ops.
Context {V : Type}.

Definition dict := list (str * V).

Fixpoint get (k : str) (d : dict) : option V :=
  match d with
  | [] => None
  | (k', v) :: rest => if str_eqb k k' then Some v else get k rest
  end.

(** [k in d] *)
Definition mem (k : str) (d : dict) : bool :=
  match get k d with Some _ => true | None => false end.

(** [d[k]], raising [KeyError] on a missing key *)
Definition getitem (k : str) (d : dict) : result V :=
  match get k d with
  | Some v => Ok v
  | None => Raise (KeyError k)
  end.

(** [d[k] = v]: overwrites in place, or adds the key at the end *)
Fixpoint setitem (k : str) (v : V) (d : dict) : dict :=
  match d with
  | [] => [(k, v)]
  | (k', v') :: rest =>
      if str_eqb k k' then (k', v) :: rest else (k', v') :: setitem k v rest
  end.

Definition keys (d : dict) : list str := map fst d.

End Ops.
Arguments dict V : clear implicits.

End Dict.

(** ** custom_pdf_extractor.py: the segmented extractor *)

Module Segmented.

(** What [page.extract_text()] gives: a string, [None], or an exception.
    The extractor calls it twice on every page, once in [detect_title] and
    once in the loop of [extract_text]. *)
Record Page := {
  height : Q;
  text_for_title : result (option str);
  text_for_body : result (option str)
}.

(** What the path leads to: the two [os.path] tests and [pdfplumber.open]. *)
Record Document := {
  path_exists : bool;
  path_isfile : bool;
  pdfplumber_open : result (list Page)
}.

(** The dict returned by [detect_title]. *)
Record TitleInfo := {
  title : str;
  author_info : str
}.

(** One value of [self.sections]. *)
Record SectionData := {
  s_title : str;
  s_author_info : str;
  content : list str
}.

Record Extractor := {
  footer_threshold : Q;
  title_threshold : Q;
  sections : Dict.dict SectionData
}.

Definition set_sections (self : Extractor) (d : Dict.dict SectionData) : Extractor :=
  {| footer_threshold := footer_threshold self;
     title_threshold := title_threshold self;
     sections := d |}.

(** [__init__] *)
Definition init : Extractor :=
  {| footer_threshold := (9 # 10)%Q;
     title_threshold := (3 # 10)%Q;
     sections := [] |}.

(** The literals of the module: ['作者名'], ['xxx'], ["未分类内容"]. *)
Definition author_marker : str := [20316; 32773; 21517]%N.
Definition footer_keyword : str := lit "xxx".
Definition default_title : str := [26410; 20998; 31867; 20869; 23481]%N.

(** [validate_pdf] *)
Definition validate_pdf (pdf : Document) : bool :=
  if negb (path_exists pdf) then false
  else if negb (path_isfile pdf) then false
  else try_except
         (let* pages := pdfplumber_open pdf in
          if length pages =? 0 then Ok false else Ok true)
         false.

(** [len(author_line) >= 4 and '作者名' in author_line] *)
Definition is_author_line (author_line : str) : bool :=
  (4 <=? length author_line) && contains author_marker author_line.

(** [for i in range(1, len(lines))], with [n] the iterations left.  The
    index stays below [len(lines)], so [lines[i]] is always there. *)
Fixpoint scan_author (lines : list str) (i n : nat) : option TitleInfo :=
  match n with
  | O => None
  | S n' =>
      match nth_error lines i with
      | None => None
      | Some author_line =>
          if is_author_line author_line
          then Some {| title := strip (join [space] (firstn i lines));
                       author_info := author_line |}
          else scan_author lines (S i) n'
      end
  end.

(** [lines = [line.strip() for line in lines if line.strip()]] *)
Definition clean_lines (lines : list str) : list str :=
  map strip (filter (fun line => truthy (strip line)) lines).

Definition detect_title_body (page : Page) : result (option TitleInfo) :=
  let* text := text_for_title page in
  match text with
  | None => Ok None
  | Some text =>
      if negb (truthy text) then Ok None
      else
        let lines := firstn 4 (split_nl text) in
        if length lines <? 2 then Ok None
        else
          let lines := clean_lines lines in
          if length lines <? 2 then Ok None
          else Ok (scan_author lines 1 (length lines - 1))
  end.

(** [detect_title]: the whole body sits in [try ... except Exception:
    return None]. *)
Definition detect_title (page : Page) : option TitleInfo :=
  try_except (detect_title_body page) None.

(** The keyword filter: [for line in lines: if 'xxx' not in line:
    filtered_lines.append(line)]. *)
Fixpoint keyword_filter_loop (lines filtered_lines : list str) : list str :=
  match lines with
  | [] => filtered_lines
  | line :: rest =>
      if negb (contains footer_keyword line)
      then keyword_filter_loop rest (filtered_lines ++ [line])
      else keyword_filter_loop rest filtered_lines
  end.

Definition keyword_filter (lines : list str) : list str :=
  keyword_filter_loop lines [].

(** [self.sections[current_title]['content'].append(page_text)] *)
Definition append_content (section : SectionData) (page_text : str) : SectionData :=
  {| s_title := s_title section;
     s_author_info := s_author_info section;
     content := content section ++ [page_text] |}.

(** The state of the page loop: [self] and the local [current_title]. *)
Definition LoopState : Type := Extractor * str.

(** Lines 94-103: title detection may switch the active section. *)
Definition title_step (st : LoopState) (page : Page) : LoopState :=
  let '(self, current_title) := st in
  match detect_title page with
  | Some title_info =>
      let current_title := title title_info in
      if negb (Dict.mem current_title (sections self))
      then (set_sections self
              (Dict.setitem current_title
                 {| s_title := current_title;
                    s_author_info := author_info title_info;
                    content := [] |}
                 (sections self)),
            current_title)
      else (self, current_title)
  | None => (self, current_title)
  end.

(** Lines 110-132: the inner [try] block.  Its only mutation is the last
    statement, so a raise leaves [self] as it was. *)
Definition page_body (st : LoopState) (page : Page) : result LoopState :=
  let '(self, current_title) := st in
  let* full_text := text_for_body page in
  match full_text with
  | None => Ok st
  | Some full_text =>
      if negb (truthy full_text) then Ok st
      else
        let lines := split_nl full_text in
        let filtered_lines := keyword_filter lines in
        if truthy filtered_lines
        then
          let page_text := normalize filtered_lines in
          let* section := Dict.getitem current_title (sections self) in
          Ok (set_sections self
                (Dict.setitem current_title (append_content section page_text)
                   (sections self)),
              current_title)
        else Ok st
  end.

(** One iteration: [except Exception: continue] goes on with what the title
    step left. *)
Definition loop_body (st : LoopState) (page : Page) : LoopState :=
  let st1 := title_step st page in
  try_except (page_body st1 page) st1.

Definition for_pages (st : LoopState) (pages : list Page) : LoopState :=
  fold_left loop_body pages st.

(** [extract_text]: the returned flag and [self] afterwards.  Opening the
    document is the only step of the outer [try] that can raise, and it
    comes before any change to [self]. *)
Definition extract_text (self : Extractor) (pdf : Document) : bool * Extractor :=
  if negb (validate_pdf pdf) then (false, self)
  else
    try_except
      (let* pages := pdfplumber_open pdf in
       let '(self', _) := for_pages (self, default_title) pages in
       Ok (0 <? length (sections self'), self'))
      (false, self).

(** The [re.sub] of [save_to_files]: each of the nine characters
    less-than, greater-than, colon, double quote, slash, backslash, bar,
    question mark and star becomes an underscore. *)
Definition unsafe_chars : list char := [60; 62; 58; 34; 47; 92; 124; 63; 42]%N.

Definition safe_title (title : str) : str :=
  map (fun c => if existsb (N.eqb c) unsafe_chars then 95%N else c) title.

(** What [save_to_files] needs from the file system: whether the output
    directory can be made, and whether the [with open(...)] block of a file
    of a given name runs to its end, the file opening and the writes and the
    close going through.  [SegmentedIO] takes the block apart. *)
Record FileSystem := {
  makedirs_ok : bool;
  open_ok : str -> bool
}.

(** A written file: its name inside [output_dir] and its text. *)
Definition File : Type := str * str.

Definition file_text (section_data : SectionData) : str :=
  (s_title section_data ++ [newline])
  ++ (s_author_info section_data ++ [newline; newline])
  ++ join [newline; newline] (content section_data).

(** The loop over [self.sections.items()]: the files written in full so
    far and whether no block failed. *)
Fixpoint save_sections (fs : FileSystem) (items : Dict.dict SectionData)
    (written : list File) : list File * bool :=
  match items with
  | [] => (written, true)
  | (title, section_data) :: rest =>
      if negb (truthy (content section_data))
      then save_sections fs rest written
      else
        let file_name := safe_title title ++ lit ".txt" in
        if open_ok fs file_name
        then save_sections fs rest (written ++ [(file_name, file_text section_data)])
        else (written, false)
  end.

Definition save_to_files (self : Extractor) (fs : FileSystem) : list File * bool :=
  if negb (makedirs_ok fs) then ([], false)
  else save_sections fs (sections self) [].

End Segmented.

(** ** [save_to_files], with the steps of the [with] block *)

Module SegmentedIO.
Import Segmented.

(** The file system, step by step: the directory can be made or not; a
    file opens for writing or [open] raises; in an open file the three
    writes and the close go through or one of them raises. *)
Record FileSystem := {
  makedirs_ok : bool;
  open_ok : str -> bool;
  write_ok : str -> bool
}.

(** What a call leaves behind: the files written in full, in the order of
    writing; the file that was opened and not finished, if any, which is on
    disk with an unknown part of its text; and the value returned. *)
Record Outcome := {
  written : list File;
  incomplete : option str;
  returned : bool
}.

Fixpoint save_sections (fs : FileSystem) (items : Dict.dict SectionData)
    (done : list File) : Outcome :=
  match items with
  | [] => {| written := done; incomplete := None; returned := true |}
  | (title, section_data) :: rest =>
      if negb (truthy (content section_data))
      then save_sections fs rest done
      else
        let file_name := safe_title title ++ lit ".txt" in
        if negb (open_ok fs file_name)
        then {| written := done; incomplete := None; returned := false |}
        else if negb (write_ok fs file_name)
        then {| written := done; incomplete := Some file_name; returned := false |}
        else save_sections fs rest (done ++ [(file_name, file_text section_data)])
  end.

Definition save_to_files (self : Extractor) (fs : FileSystem) : Outcome :=
  if negb (makedirs_ok fs)
  then {| written := []; incomplete := None; returned := false |}
  else save_sections fs (sections self) [].


End SegmentedIO.

(** ** pdf_extractor.py: the flat extractor *)

Module Flat.

(** [page.search(line)] gives the list of matches of the line on the page,
    each with its ['top'] offset, or raises; the list is empty when the line
    is not found.  Offsets and heights are finite numbers, compared
    exactly. *)
Record Page := {
  height : Q;
  page_extract_text : result (option str);
  search : str -> result (list Q)
}.

Record Document := {
  path_exists : bool;
  path_isfile : bool;
  pdfplumber_open : result (list Page)
}.

Record Extractor := {
  header_threshold : Q;
  footer_threshold : Q
}.

(** [__init__] *)
Definition init : Extractor :=
  {| header_threshold := (2 # 10)%Q; footer_threshold := (8 # 10)%Q |}.

(** [x < y] on numbers *)
Definition ltb (x y : Q) : bool := negb (Qle_bool y x).

Definition validate_pdf (pdf : Document) : bool :=
  if negb (path_exists pdf) then false
  else if negb (path_isfile pdf) then false
  else try_except
         (let* pages := pdfplumber_open pdf in
          if length pages =? 0 then Ok false else Ok true)
         false.

(** The positional filter, lines 71-78: [line_bbox[0]['top']] is the offset
    of the first match. *)
Fixpoint positional_filter_loop (page : Page) (header_height footer_height : Q)
    (lines filtered_lines : list str) : result (list str) :=
  match lines with
  | [] => Ok filtered_lines
  | line :: rest =>
      let* line_bbox := search page line in
      match line_bbox with
      | [] => positional_filter_loop page header_height footer_height rest filtered_lines
      | line_top :: _ =>
          if ltb header_height line_top && ltb line_top footer_height
          then positional_filter_loop page header_height footer_height rest
                 (filtered_lines ++ [line])
          else positional_filter_loop page header_height footer_height rest
                 filtered_lines
      end
  end.

Section Product.

(** The product of two floats, as the interpreter rounds it. *)
Variable mul : Q -> Q -> Q.

Definition header_height (self : Extractor) (page : Page) : Q :=
  mul (height page) (header_threshold self).

Definition footer_height (self : Extractor) (page : Page) : Q :=
  mul (height page) (footer_threshold self).

(** The filtered lines of a page whose text is [full_text]. *)
Definition positional_filter (self : Extractor) (page : Page) (full_text : str)
    : result (list str) :=
  positional_filter_loop page (header_height self page) (footer_height self page)
    (split_nl full_text) [].

(** Lines 60-84: the inner [try] block, giving the text to append to
    [extracted_text], if any. *)
Definition page_body (self : Extractor) (page : Page) : result (option str) :=
  let* full_text := page_extract_text page in
  match full_text with
  | None => Ok None
  | Some full_text =>
      if negb (truthy full_text) then Ok None
      else
        let* filtered_lines := positional_filter self page full_text in
        if truthy filtered_lines
        then Ok (Some (normalize filtered_lines))
        else Ok None
  end.

Definition loop_body (self : Extractor) (extracted_text : list str) (page : Page)
    : list str :=
  match try_except (page_body self page) None with
  | Some page_text => extracted_text ++ [page_text]
  | None => extracted_text
  end.

(** [extract_text]: [None] or the pages' texts joined by a blank line. *)
Definition extract_text (self : Extractor) (pdf : Document) : option str :=
  if negb (validate_pdf pdf) then None
  else
    match try_except
            (let* pages := pdfplumber_open pdf in
             Ok (Some (fold_left (loop_body self) pages [])))
            None
    with
    | None => None
    | Some extracted_text =>
        if negb (truthy extracted_text) then None
        else Some (join [newline; newline] extracted_text)
    end.

End Product.

End Flat.

(** ** Vocabulary of the properties *)

(** [m] occurs in [s] as a contiguous substring. *)
Definition occurs (m s : str) : Prop :=
  exists pre post : str, s = pre ++ m ++ post.

(** A non-empty string with no whitespace at either end. *)
Definition Trimmed (s : str) : Prop :=
  (exists c t, s = c :: t /\ isspace c = false) /\ rstrip s = s.

(** Normalized form, read off the characters: the only whitespace is the
    space, each space is followed by a character that is not whitespace, and
    the first character is not whitespace.  [collapsed] is the same without
    the conditions at the two ends. *)
Definition next_is_text (t : str) : bool :=
  match t with
  | [] => false
  | d :: _ => negb (isspace d)
  end.

Fixpoint spaced_ok (s : str) : bool :=
  match s with
  | [] => true
  | c :: t =>
      (if isspace c then (c =? space)%N && next_is_text t else true)
      && spaced_ok t
  end.

Definition is_normalized (s : str) : bool :=
  match s with
  | [] => true
  | c :: _ => negb (isspace c)
  end && spaced_ok s.

Fixpoint collapsed (s : str) : bool :=
  match s with
  | [] => true
  | c :: t =>
      (if isspace c
       then (c =? space)%N && match t with [] => true | d :: _ => negb (isspace d) end
       else true)
      && collapsed t
  end.

(** The lines of a text, said without the functions of the code: [raws]
    are the pieces of [text] between its newlines when none of them holds a
    newline and, joined by newlines, they give [text] back. *)
Definition LinesOf (text : str) (raws : list str) : Prop :=
  raws <> []
  /\ (forall raw, In raw raws -> ~ In newline raw)
  /\ join [newline] raws = text.

(** A string of whitespace only. *)
Definition Blank (s : str) : Prop := forall c, In c s -> isspace c = true.

(** [s] is [raw] stripped, and is not empty: [raw] is [s] between two
    runs of whitespace, and [s] begins and ends with a character that is not
    whitespace. *)
Definition StrippedTo (raw s : str) : Prop :=
  exists w1 w2 : str,
    raw = w1 ++ s ++ w2 /\ Blank w1 /\ Blank w2
    /\ (exists c t, s = c :: t /\ isspace c = false)
    /\ (exists t d, s = t ++ [d] /\ isspace d = false).

(** [lines] are [raws], each stripped, the empty ones dropped. *)
Inductive Cleaned : list str -> list str -> Prop :=
| Cleaned_nil : Cleaned [] []
| Cleaned_drop : forall raw raws lines,
    Blank raw -> Cleaned raws lines -> Cleaned (raw :: raws) lines
| Cleaned_keep : forall raw raws s lines,
    StrippedTo raw s -> Cleaned raws lines -> Cleaned (raw :: raws) (s :: lines).

(** A string with no whitespace character in it. *)
Definition text_only (m : str) : bool :=
  forallb (fun c => negb (isspace c)) m.

(** [l1] is [l2] with some elements left out, the order kept. *)
Inductive Subseq {A : Type} : list A -> list A -> Prop :=
| Subseq_nil : Subseq [] []
| Subseq_skip : forall x l1 l2, Subseq l1 l2 -> Subseq l1 (x :: l2)
| Subseq_keep : forall x l1 l2, Subseq l1 l2 -> Subseq (x :: l1) (x :: l2).

Module SegmentedSpec.
Import Segmented.

(** The lines the title detector looks at: the first four lines of the raw
    text, stripped, the empty ones dropped. *)
Definition candidate_lines (text : str) : list str :=
  clean_lines (firstn 4 (split_nl text)).

(** The test of the keyword filter on one line. *)
Definition keeps (line : str) : bool := negb (contains footer_keyword line).

(** An author line: at least four characters, and the marker in it. *)
Definition AuthorLine (l : str) : Prop :=
  4 <= length l /\ occurs author_marker l.

(** The text a page contributes: the normalized text of its retained lines,
    when its text can be read and some line is retained. *)
Definition page_texts (page : Page) : list str :=
  match text_for_body page with
  | Ok (Some full_text) =>
      if truthy full_text && truthy (keyword_filter (split_nl full_text))
      then [normalize (keyword_filter (split_nl full_text))]
      else []
  | _ => []
  end.

(** A section with further page-texts appended. *)
Definition extend (s : SectionData) (texts : list str) : SectionData :=
  {| s_title := s_title s;
     s_author_info := s_author_info s;
     content := content s ++ texts |}.

(** The pages a run goes through: those of a document that passes
    [validate_pdf] and opens. *)
Definition processed_pages (pdf : Document) : list Page :=
  if validate_pdf pdf
  then match pdfplumber_open pdf with
       | Ok pages => pages
       | Raise _ => []
       end
  else [].

(** The active title and the registry after the title step of a page. *)
Definition title_after (cur : str) (page : Page) : str :=
  match detect_title page with
  | Some ti => title ti
  | None => cur
  end.

Definition filed_after (filed : bool) (page : Page) : bool :=
  match detect_title page with
  | Some _ => true
  | None => filed
  end.

(** The author-info recorded with the first detection of title [t]. *)
Fixpoint first_author (t : str) (pages : list Page) : option str :=
  match pages with
  | [] => None
  | page :: rest =>
      match detect_title page with
      | Some ti => if str_eqb (title ti) t then Some (author_info ti)
                   else first_author t rest
      | None => first_author t rest
      end
  end.

(** The page-texts filed under title [t], in page order.  [cur] is the
    active title before the first of [pages] and [filed] tells whether the
    active title has a section; a detected title always has one. *)
Fixpoint routed (t cur : str) (filed : bool) (pages : list Page) : list str :=
  match pages with
  | [] => []
  | page :: rest =>
      let cur' := title_after cur page in
      let filed' := filed_after filed page in
      (if filed' && str_eqb cur' t then page_texts page else [])
      ++ routed t cur' filed' rest
  end.

(** The titles detected on the pages, in page order, and a list of titles
    with each kept at its first place only. *)
Definition detected_titles (pages : list Page) : list str :=
  flat_map (fun page => match detect_title page with
                        | Some ti => [title ti]
                        | None => []
                        end) pages.

Fixpoint add_new (seen titles : list str) : list str :=
  match titles with
  | [] => seen
  | t :: rest =>
      if existsb (str_eqb t) seen then add_new seen rest
      else add_new (seen ++ [t]) rest
  end.

(** A section with some page-text in it, and the file written for it. *)
Definition has_content (item : str * SectionData) : bool :=
  truthy (content (snd item)).

Definition section_file (item : str * SectionData) : File :=
  (safe_title (fst item) ++ lit ".txt", file_text (snd item)).

End SegmentedSpec.

(** ** Sample documents *)

Module Samples.
Import Segmented.

(** A page whose text is read the same way at both calls. *)
Definition page_of (text : str) : Page :=
  {| height := 842%Q;
     text_for_title := Ok (Some text);
     text_for_body := Ok (Some text) |}.

(** A page on which [extract_text()] raises. *)
Definition unreadable_page : Page :=
  {| height := 842%Q;
     text_for_title := Raise LibraryError;
     text_for_body := Raise LibraryError |}.

Definition document_of (pages : list Page) : Document :=
  {| path_exists := true; path_isfile := true; pdfplumber_open := Ok pages |}.

Definition lines_of (ls : list str) : str := join [newline] ls.

Definition jane : str := author_marker ++ lit ": Jane Doe".
Definition john : str := author_marker ++ lit ": John Roe".

(** A heading, its author line, and one line of body. *)
Definition heading_text : str :=
  lines_of [lit "Understanding Systems"; jane; lit "Body line"].

Definition heading_lines : list str :=
  [lit "Understanding Systems"; jane; lit "Body line"].

(** The same title again, under another author line. *)
Definition heading_again_text : str :=
  lines_of [lit "Understanding Systems"; john; lit "More body"].

Definition plain_text : str := lit "Plain body text".

(** A heading whose lines all carry the footer keyword, then a line that
    holds one space. *)
Definition blank_section_text : str :=
  lines_of [lit "xxx Annual Report"; author_marker ++ lit ": xxx Press"; lit " "].

(** The same heading with nothing under it. *)
Definition empty_section_text : str :=
  lines_of [lit "xxx Annual Report"; author_marker ++ lit ": xxx Press"].

(** Five lines, the author line being the fifth, and the first four of
    them. *)
Definition late_author_text : str :=
  lines_of [lit "Understanding Systems"; lit "a study"; lit "in three parts";
            lit "second edition"; jane].

Definition four_lines_text : str :=
  lines_of [lit "Understanding Systems"; lit "a study"; lit "in three parts";
            lit "second edition"].

(** The sample heading page with a footer line under it. *)
Definition footer_text : str :=
  lines_of [lit "Understanding Systems"; jane; lit "Body line"; lit "page 1 xxx"].

(** A file system on which every operation succeeds. *)
Definition fs_ok : FileSystem :=
  {| makedirs_ok := true; open_ok := fun _ => true |}.

End Samples.

Module FlatSpec.
Import Flat.

(** The band test on a line: its lookup finds a first match and the top
    offset of that match lies strictly between the two heights. *)
Definition in_band (page : Page) (header_height footer_height : Q) (line : str)
    : bool :=
  match search page line with
  | Ok (line_top :: _) =>
      ltb header_height line_top && ltb line_top footer_height
  | _ => false
  end.

(** No lookup on the lines raises. *)
Definition lookups_return (page : Page) (lines : list str) : Prop :=
  forall line, In line lines -> exists matches, search page line = Ok matches.

(** What a page adds to the extracted texts: the text its block returns,
    nothing when the block returns none or raises. *)
Definition contribution (mul : Q -> Q -> Q) (self : Extractor) (page : Page)
    : list str :=
  match try_except (page_body mul self page) None with
  | Some page_text => [page_text]
  | None => []
  end.

End FlatSpec.

Module FlatSamples.
Import Flat.

(** A page of height 100 with a running head at 10, a body line at 50, a
    page number at 80 and a line that the lookup does not find. *)
Definition sample_text : str :=
  join [newline]
    [lit "Running head"; lit "Body text"; lit "Page 3"; lit "Watermark"].

Definition sample_search (line : str) : result (list Q) :=
  if str_eqb line (lit "Running head") then Ok [10%Q]
  else if str_eqb line (lit "Body text") then Ok [50%Q]
  else if str_eqb line (lit "Page 3") then Ok [80%Q]
  else Ok [].

Definition sample_page : Page :=
  {| height := 100%Q;
     page_extract_text := Ok (Some sample_text);
     search := sample_search |}.

(** The sample page with one more line, on which the lookup raises. *)
Definition raising_text : str :=
  join [newline] [lit "Body text"; lit "(continued"].

Definition raising_search (line : str) : result (list Q) :=
  if str_eqb line (lit "(continued") then Raise LibraryError
  else sample_search line.

Definition raising_page : Page :=
  {| height := 100%Q;
     page_extract_text := Ok (Some raising_text);
     search := raising_search |}.

End FlatSamples.

(** * Properties *)

(** ** Strings *)

Section StringFacts.

Lemma isspace_space : isspace space = true.
Proof. reflexivity. Qed.

Lemma str_eqb_eq (a b : str) : str_eqb a b = true <-> a = b.
Proof.
  unfold str_eqb. destruct (list_eq_dec N.eq_dec a b); split; congruence.
Qed.

Lemma str_eqb_refl (a : str) : str_eqb a a = true.
Proof. now apply str_eqb_eq. Qed.

Lemma str_eqb_neq (a b : str) : str_eqb a b = false <-> a <> b.
Proof.
  unfold str_eqb. destruct (list_eq_dec N.eq_dec a b); split; congruence.
Qed.

(** [rstrip] on a string that starts with a character it keeps. *)
Lemma rstrip_cons_keep {c : char} (t : str) :
  isspace c = false -> rstrip (c :: t) = c :: rstrip t.
Proof.
  intros Hc. simpl. rewrite Hc. now destruct (rstrip t).
Qed.

Lemma rstrip_cons_space {c : char} (t : str) :
  isspace c = true ->
  rstrip (c :: t) = match rstrip t with [] => [] | r => c :: r end.
Proof.
  intros Hc. simpl. now rewrite Hc.
Qed.

Lemma lstrip_idem (s : str) : lstrip (lstrip s) = lstrip s.
Proof.
  induction s as [|c t IH]; simpl; [reflexivity|].
  destruct (isspace c) eqn:Hc; [exact IH|].
  simpl. now rewrite Hc.
Qed.

Lemma rstrip_idem (s : str) : rstrip (rstrip s) = rstrip s.
Proof.
  induction s as [|c t IH]; [reflexivity|].
  destruct (isspace c) eqn:Hc.
  - rewrite (rstrip_cons_space _ Hc).
    destruct (rstrip t) as [|d r] eqn:Hr; [reflexivity|].
    rewrite (rstrip_cons_space _ Hc), IH. reflexivity.
  - rewrite (rstrip_cons_keep _ Hc), (rstrip_cons_keep _ Hc), IH. reflexivity.
Qed.

Lemma lstrip_rstrip_comm (s : str) : lstrip (rstrip s) = rstrip (lstrip s).
Proof.
  induction s as [|c t IH]; [reflexivity|].
  destruct (isspace c) eqn:Hc.
  - rewrite (rstrip_cons_space _ Hc). simpl lstrip at 2. rewrite Hc, <- IH.
    destruct (rstrip t) as [|d r]; [reflexivity|].
    simpl. now rewrite Hc.
  - rewrite (rstrip_cons_keep _ Hc). simpl. rewrite Hc.
    now rewrite (rstrip_cons_keep _ Hc).
Qed.

Lemma strip_idem (s : str) : strip (strip s) = strip s.
Proof.
  unfold strip.
  rewrite lstrip_rstrip_comm, lstrip_idem. apply rstrip_idem.
Qed.

(** A non-empty [rstrip] has a character that is not whitespace. *)
Lemma rstrip_nonempty_has_text (s : str) :
  rstrip s <> [] -> existsb (fun c => negb (isspace c)) (rstrip s) = true.
Proof.
  induction s as [|c t IH]; [intros H; now elim H|].
  destruct (isspace c) eqn:Hc.
  - rewrite (rstrip_cons_space _ Hc).
    destruct (rstrip t) as [|d r] eqn:Hr; [intros H; now elim H|].
    intros _. simpl existsb at 1. rewrite Hc. simpl. apply IH. discriminate.
  - rewrite (rstrip_cons_keep _ Hc). intros _. simpl. now rewrite Hc.
Qed.

Lemma sub_ws_from_has_text (b : bool) (s : str) :
  existsb (fun c => negb (isspace c)) s = true -> sub_ws_from b s <> [].
Proof.
  revert b. induction s as [|c t IH]; intros b; simpl; [discriminate|].
  destruct (isspace c) eqn:Hc; simpl.
  - intros H. destruct b; [now apply IH | discriminate].
  - discriminate.
Qed.

(** Collapsing whitespace commutes with both strips. *)
Lemma sub_ws_from_lstrip (b : bool) (s : str) :
  lstrip (sub_ws_from b s) = sub_ws_from false (lstrip s).
Proof.
  revert b. induction s as [|c t IH]; intros b; [reflexivity|].
  simpl. destruct (isspace c) eqn:Hc.
  - destruct b; [apply IH|]. simpl. apply IH.
  - simpl. now rewrite Hc.
Qed.

Lemma sub_ws_from_rstrip (b : bool) (s : str) :
  rstrip (sub_ws_from b s) = sub_ws_from b (rstrip s).
Proof.
  revert b. induction s as [|c t IH]; intros b; [reflexivity|].
  destruct (isspace c) eqn:Hc.
  - rewrite (rstrip_cons_space _ Hc). simpl sub_ws_from at 1. rewrite Hc.
    destruct (rstrip t) as [|d r] eqn:Hr.
    + destruct b.
      * rewrite IH. reflexivity.
      * rewrite (rstrip_cons_space _ isspace_space), IH. reflexivity.
    + assert (Hne : sub_ws_from true (d :: r) <> []).
      { apply sub_ws_from_has_text. rewrite <- Hr.
        apply rstrip_nonempty_has_text. rewrite Hr. discriminate. }
      change (sub_ws_from b (c :: d :: r))
        with (if isspace c
              then if b then sub_ws_from true (d :: r)
                   else space :: sub_ws_from true (d :: r)
              else c :: sub_ws_from false (d :: r)).
      rewrite Hc. destruct b.
      * apply IH.
      * rewrite (rstrip_cons_space _ isspace_space), IH.
        destruct (sub_ws_from true (d :: r)); [now elim Hne | reflexivity].
  - rewrite (rstrip_cons_keep _ Hc). simpl. rewrite Hc.
    rewrite (rstrip_cons_keep _ Hc), IH. reflexivity.
Qed.

Lemma sub_ws_from_idem (s : str) :
  sub_ws_from false (sub_ws_from false s) = sub_ws_from false s
  /\ sub_ws_from true (sub_ws_from true s) = sub_ws_from true s.
Proof.
  induction s as [|c t [IHf IHt]]; [split; reflexivity|].
  simpl. destruct (isspace c) eqn:Hc; split.
  - simpl. now rewrite IHt.
  - exact IHt.
  - simpl. now rewrite Hc, IHf.
  - simpl. now rewrite Hc, IHf.
Qed.

Lemma sub_ws_idem (s : str) : sub_ws (sub_ws s) = sub_ws s.
Proof. apply sub_ws_from_idem. Qed.

Lemma sub_ws_strip (s : str) : sub_ws (strip s) = strip (sub_ws s).
Proof.
  unfold sub_ws, strip.
  now rewrite <- sub_ws_from_rstrip, <- (sub_ws_from_lstrip false).
Qed.

(** What the string operations are: splitting at newlines and joining
    with newlines are inverse, no line holds a newline, and the strips remove
    exactly the whitespace at their end. *)
Lemma split_nl_nonempty (s : str) : split_nl s <> [].
Proof.
  destruct s as [|c t]; simpl; [discriminate|].
  destruct (c =? newline)%N; [discriminate|].
  destruct (split_nl t); discriminate.
Qed.

Lemma join_split_nl (s : str) : join [newline] (split_nl s) = s.
Proof.
  induction s as [|c t IH]; [reflexivity|].
  simpl split_nl. destruct (c =? newline)%N eqn:E.
  - apply N.eqb_eq in E. subst c.
    pose proof (split_nl_nonempty t) as Hne.
    destruct (split_nl t) as [|l ls] eqn:Et; [now elim Hne|].
    change (join [newline] ([] :: l :: ls)) with (newline :: join [newline] (l :: ls)).
    now rewrite IH.
  - pose proof (split_nl_nonempty t) as Hne.
    destruct (split_nl t) as [|l ls] eqn:Et; [now elim Hne|].
    rewrite <- IH. now destruct ls.
Qed.

Lemma split_nl_no_newline (s : str) :
  Forall (fun line => ~ In newline line) (split_nl s).
Proof.
  induction s as [|c t IH]; simpl.
  - constructor; [intros [] | constructor].
  - destruct (c =? newline)%N eqn:E.
    + constructor; [intros [] | exact IH].
    + apply N.eqb_neq in E.
      destruct (split_nl t) as [|l ls]; [constructor; [|constructor]|].
      * intros [H|[]]. congruence.
      * inversion IH as [|? ? Hl Hls]; subst. constructor; [|exact Hls].
        intros [H|H]; [congruence | now apply Hl].
Qed.

Lemma lstrip_spec (s : str) :
  exists w, s = w ++ lstrip s /\ forallb isspace w = true
            /\ match lstrip s with [] => True | c :: _ => isspace c = false end.
Proof.
  induction s as [|c t [w [Hw [Hsp Hh]]]]; [now exists []|].
  simpl. destruct (isspace c) eqn:Hc.
  - exists (c :: w). simpl. rewrite Hc, Hsp. repeat split; [congruence | exact Hh].
  - now exists [].
Qed.

Lemma rstrip_spec (s : str) :
  exists w, s = rstrip s ++ w /\ forallb isspace w = true
            /\ (rstrip s = []
                \/ exists r c, rstrip s = r ++ [c] /\ isspace c = false).
Proof.
  induction s as [|c t [w [Hw [Hsp Hl]]]]; [exists []; auto|].
  destruct (isspace c) eqn:Hc.
  - rewrite (rstrip_cons_space _ Hc). destruct (rstrip t) as [|d r] eqn:Hr.
    + exists (c :: w). simpl in *. rewrite Hc, Hsp. subst t. auto.
    + exists w. split; [simpl; f_equal; exact Hw|]. split; [exact Hsp|]. right.
      destruct Hl as [Hl|[r' [c' [Hl Hc']]]]; [discriminate|].
      exists (c :: r'), c'. rewrite Hl. auto.
  - rewrite (rstrip_cons_keep _ Hc). exists w.
    split; [simpl; f_equal; exact Hw|]. split; [exact Hsp|]. right.
    destruct Hl as [Hl|[r' [c' [Hl Hc']]]].
    + rewrite Hl. now exists [], c.
    + exists (c :: r'), c'. rewrite Hl. auto.
Qed.

Example sub_ws_runs :
  sub_ws (lit "  a" ++ [9; 10; 12288]%N ++ lit "b  c ") = lit " a b c ".
Proof. reflexivity. Qed.

End StringFacts.

(** ** Substring test *)

Lemma startswith_spec (m s : str) :
  startswith m s = true <-> exists post : str, s = m ++ post.
Proof.
  revert s. induction m as [|a m IH]; intros s; simpl.
  - split; [intros _; now exists s | reflexivity].
  - destruct s as [|b s].
    + split; [discriminate | intros [post H]; discriminate].
    + rewrite andb_true_iff, N.eqb_eq, IH. split.
      * intros [-> [post ->]]. now exists post.
      * intros [post H]. injection H as -> ->. split; [reflexivity | now exists post].
Qed.

Lemma contains_spec (m s : str) : contains m s = true <-> occurs m s.
Proof.
  unfold occurs. induction s as [|c t IH].
  - simpl. rewrite orb_false_r, startswith_spec. split.
    + intros [post H]. now exists [], post.
    + intros [pre [post H]]. destruct pre; [now exists post | discriminate].
  - simpl. rewrite orb_true_iff, startswith_spec, IH. split.
    + intros [[post H] | [pre [post H]]].
      * now exists [], post.
      * exists (c :: pre), post. simpl. now rewrite H.
    + intros [pre [post H]]. destruct pre as [|d pre].
      * left. now exists post.
      * right. injection H as _ H. now exists pre, post.
Qed.

(** ** The keyword boilerplate filter *)

Import Segmented SegmentedSpec.

Lemma keyword_filter_loop_filter (lines filtered_lines : list str) :
  keyword_filter_loop lines filtered_lines = filtered_lines ++ filter keeps lines.
Proof.
  revert filtered_lines. induction lines as [|line rest IH]; intros acc; simpl.
  - now rewrite app_nil_r.
  - unfold keeps at 1. destruct (negb (contains footer_keyword line)).
    + rewrite IH, <- app_assoc. reflexivity.
    + apply IH.
Qed.

Lemma filter_Subseq {A : Type} (f : A -> bool) (l : list A) : Subseq (filter f l) l.
Proof.
  induction l as [|x l IH]; simpl; [constructor|].
  destruct (f x); now constructor.
Qed.

(** C7.  The keyword filter retains exactly the lines in which the marker
    ['xxx'] does not occur, as many times and in the order in which they
    come in the input. *)
Theorem C7_keyword_filter_retains :
  forall lines : list str,
    keyword_filter lines
      = filter (fun line => negb (contains footer_keyword line)) lines
    /\ Subseq (keyword_filter lines) lines
    /\ (forall line : str,
           In line (keyword_filter lines)
           <-> In line lines /\ ~ occurs (lit "xxx") line).
Proof.
  intros lines.
  assert (E : keyword_filter lines = filter keeps lines).
  { unfold keyword_filter. now rewrite keyword_filter_loop_filter. }
  split; [exact E|]. rewrite E. split; [apply filter_Subseq|].
  intros line. rewrite filter_In. unfold keeps.
  rewrite negb_true_iff, <- not_true_iff_false, contains_spec. reflexivity.
Qed.

(** ** Trimmed strings *)

Lemma lstrip_head (s : str) :
  lstrip s = [] \/ exists c t, lstrip s = c :: t /\ isspace c = false.
Proof.
  induction s as [|c t IH]; simpl; [now left|].
  destruct (isspace c) eqn:Hc; [exact IH|].
  right. now exists c, t.
Qed.

Lemma strip_Trimmed (s : str) : strip s <> [] -> Trimmed (strip s).
Proof.
  intros Hne. split.
  - unfold strip in *. destruct (lstrip_head s) as [E | [c [t [E Hc]]]].
    + rewrite E in Hne. now elim Hne.
    + rewrite E, (rstrip_cons_keep _ Hc). now exists c, (rstrip t).
  - unfold strip. apply rstrip_idem.
Qed.

Lemma rstrip_app (x a : str) : rstrip a <> [] -> rstrip (x ++ a) = x ++ rstrip a.
Proof.
  intros Ha. induction x as [|c x IH]; [reflexivity|].
  simpl. rewrite IH. destruct (x ++ rstrip a) eqn:E; [|reflexivity].
  apply app_eq_nil in E. now elim Ha.
Qed.

Lemma Trimmed_strip (s : str) : Trimmed s -> strip s = s.
Proof.
  intros [[c [t [-> Hc]]] Hr]. unfold strip. simpl. now rewrite Hc.
Qed.

Lemma Trimmed_app (a x b : str) : Trimmed a -> Trimmed b -> Trimmed (a ++ x ++ b).
Proof.
  intros [[c [t [-> Hc]]] _] [[d [u [-> Hd]]] Hb]. split.
  - now exists c, (t ++ x ++ d :: u).
  - rewrite app_assoc, rstrip_app; rewrite Hb; [reflexivity | discriminate].
Qed.

Lemma join_Trimmed (sep : str) (ls : list str) :
  ls <> [] -> Forall Trimmed ls -> Trimmed (join sep ls).
Proof.
  induction ls as [|l rest IH]; [intros H; now elim H|].
  intros _ HF. inversion HF as [|? ? Hl Hrest]; subst.
  destruct rest as [|l2 rest]; [exact Hl|].
  change (Trimmed (l ++ sep ++ join sep (l2 :: rest))).
  apply Trimmed_app; [exact Hl|]. apply IH; [discriminate | exact Hrest].
Qed.

Lemma clean_lines_Trimmed (lines : list str) : Forall Trimmed (clean_lines lines).
Proof.
  unfold clean_lines. induction lines as [|l rest IH]; simpl; [constructor|].
  destruct (strip l) eqn:E; simpl; [exact IH|].
  constructor; [|exact IH].
  apply strip_Trimmed. rewrite E. discriminate.
Qed.

Lemma clean_lines_length (lines : list str) :
  length (clean_lines lines) <= length lines.
Proof.
  unfold clean_lines. rewrite length_map. apply filter_length_le.
Qed.

(** ** The normalizer *)

Lemma normalize_single (s : str) : normalize [s] = strip (sub_ws s).
Proof. reflexivity. Qed.

Lemma spaced_ok_sub_ws (s : str) : spaced_ok s = true -> sub_ws_from false s = s.
Proof.
  induction s as [|c t IH]; [reflexivity|].
  simpl. destruct (isspace c) eqn:Hc.
  - rewrite !andb_true_iff, N.eqb_eq. intros [[-> Hn] Hs].
    destruct t as [|d t']; [discriminate|]. simpl in Hn.
    apply negb_true_iff in Hn. specialize (IH Hs). simpl in IH |- *.
    rewrite Hn in IH |- *. now rewrite IH.
  - simpl. intros Hs. now rewrite (IH Hs).
Qed.

Lemma spaced_ok_rstrip (s : str) : spaced_ok s = true -> rstrip s = s.
Proof.
  induction s as [|c t IH]; [reflexivity|].
  simpl spaced_ok. destruct (isspace c) eqn:Hc.
  - rewrite !andb_true_iff. intros [[_ Hn] Hs].
    rewrite (rstrip_cons_space _ Hc), (IH Hs). now destruct t.
  - intros Hs. simpl in Hs. now rewrite (rstrip_cons_keep _ Hc), (IH Hs).
Qed.

Lemma is_normalized_fixed (s : str) :
  is_normalized s = true -> strip (sub_ws s) = s.
Proof.
  unfold is_normalized. rewrite andb_true_iff. intros [Hh Hs].
  unfold sub_ws. rewrite (spaced_ok_sub_ws s Hs). unfold strip.
  destruct s as [|c t]; [reflexivity|].
  apply negb_true_iff in Hh. simpl lstrip. rewrite Hh.
  now apply spaced_ok_rstrip.
Qed.

(** The other way round: what the normalizer returns is in that form. *)
Lemma sub_ws_from_collapsed (b : bool) (s : str) :
  collapsed (sub_ws_from b s) = true
  /\ (b = true ->
      match sub_ws_from b s with [] => True | d :: _ => isspace d = false end).
Proof.
  revert b. induction s as [|c t IH]; intros b; [now split|].
  simpl. destruct (isspace c) eqn:Hc.
  - destruct b.
    + apply IH.
    + destruct (IH true) as [H1 H2]. split; [|discriminate].
      simpl. rewrite H1, andb_true_r. specialize (H2 eq_refl).
      destruct (sub_ws_from true t); [reflexivity|]. now rewrite H2.
  - destruct (IH false) as [H1 _]. split; [|intros _; exact Hc].
    simpl. now rewrite Hc, H1.
Qed.

Lemma collapsed_tail (c : char) (t : str) : collapsed (c :: t) = true -> collapsed t = true.
Proof. simpl. rewrite andb_true_iff. tauto. Qed.

Lemma collapsed_lstrip (s : str) : collapsed s = true -> collapsed (lstrip s) = true.
Proof.
  induction s as [|c t IH]; [reflexivity|].
  intros H. simpl lstrip. destruct (isspace c); [|exact H].
  apply IH. now apply collapsed_tail in H.
Qed.

Lemma rstrip_head (s : str) (d : char) (r : str) :
  rstrip s = d :: r -> exists t, s = d :: t.
Proof.
  destruct s as [|c t]; [discriminate|]. simpl.
  destruct (rstrip t); [destruct (isspace c)|]; intros H; try discriminate;
    injection H as -> _; eauto.
Qed.

Lemma collapsed_rstrip (s : str) : collapsed s = true -> spaced_ok (rstrip s) = true.
Proof.
  induction s as [|c t IH]; [reflexivity|].
  intros H. pose proof (collapsed_tail _ _ H) as Ht. specialize (IH Ht).
  destruct (isspace c) eqn:Hc.
  - rewrite (rstrip_cons_space _ Hc).
    destruct (rstrip t) as [|d r] eqn:Hr; [reflexivity|].
    destruct (rstrip_head _ _ _ Hr) as [t' ->].
    simpl in H. rewrite Hc in H. rewrite !andb_true_iff in H.
    destruct H as [[Hsp Hd] _].
    change (spaced_ok (c :: d :: r))
      with ((if isspace c then (c =? space)%N && next_is_text (d :: r) else true)
            && spaced_ok (d :: r)).
    rewrite Hc, Hsp, IH. simpl. now rewrite Hd.
  - rewrite (rstrip_cons_keep _ Hc). simpl. now rewrite Hc, IH.
Qed.

Lemma normalized_is_normalized (s : str) : is_normalized (strip (sub_ws s)) = true.
Proof.
  unfold is_normalized. apply andb_true_iff. split.
  - destruct (strip (sub_ws s)) as [|c t] eqn:E; [reflexivity|].
    assert (Hne : strip (sub_ws s) <> []) by (rewrite E; discriminate).
    destruct (strip_Trimmed _ Hne) as [[c' [t' [E' Hc']]] _].
    rewrite E in E'. injection E' as -> ->. now rewrite Hc'.
  - unfold strip. apply collapsed_rstrip, collapsed_lstrip.
    apply (sub_ws_from_collapsed false).
Qed.

(** C8.  The normalizer is idempotent: the normalized text of some lines,
    taken as the only line, normalizes to itself; and in terms of one
    string, collapsing whitespace runs and trimming, done twice, is the same
    as done once.  The strings the normalizer leaves unchanged are those in
    normalized form: single spaces only, none at either end. *)
Theorem C8_normalize_idempotent :
  (forall filtered_lines : list str,
      normalize [normalize filtered_lines] = normalize filtered_lines)
  /\ (forall s : str, strip (sub_ws (strip (sub_ws s))) = strip (sub_ws s))
  /\ (forall s : str, is_normalized s = true <-> normalize [s] = s).
Proof.
  assert (H : forall s : str, strip (sub_ws (strip (sub_ws s))) = strip (sub_ws s)).
  { intros s. now rewrite sub_ws_strip, sub_ws_idem, strip_idem. }
  split; [|split; [exact H|]].
  - intros filtered_lines. rewrite normalize_single. unfold normalize. apply H.
  - intros s. rewrite normalize_single. split.
    + apply is_normalized_fixed.
    + intros E. rewrite <- E. apply normalized_is_normalized.
Qed.

(** ** The title detector *)

Lemma is_author_line_spec (l : str) : is_author_line l = true <-> AuthorLine l.
Proof.
  unfold is_author_line, AuthorLine.
  now rewrite andb_true_iff, Nat.leb_le, contains_spec.
Qed.

Lemma scan_author_None (lines : list str) (n i : nat) :
  scan_author lines i n = None -> i + n <= length lines ->
  forall j l, i <= j < i + n -> nth_error lines j = Some l ->
              is_author_line l = false.
Proof.
  revert i. induction n as [|n IH]; intros i Hs Hlen j l Hj Hl; [lia|].
  simpl in Hs. destruct (nth_error lines i) as [a|] eqn:Ea.
  - destruct (is_author_line a) eqn:Eb; [discriminate|].
    destruct (Nat.eq_dec j i) as [->|Hne].
    + congruence.
    + apply (IH (S i) Hs ltac:(lia) j l); [lia | exact Hl].
  - apply nth_error_None in Ea. lia.
Qed.

Lemma scan_author_Some (lines : list str) (n i : nat) (ti : TitleInfo) :
  scan_author lines i n = Some ti ->
  exists k, i <= k < i + n
    /\ nth_error lines k = Some (author_info ti)
    /\ is_author_line (author_info ti) = true
    /\ (forall j l, i <= j < k -> nth_error lines j = Some l ->
                    is_author_line l = false)
    /\ title ti = strip (join [space] (firstn k lines)).
Proof.
  revert i. induction n as [|n IH]; intros i Hs; [discriminate|].
  simpl in Hs. destruct (nth_error lines i) as [a|] eqn:Ea; [|discriminate].
  destruct (is_author_line a) eqn:Eb.
  - injection Hs as <-. exists i. simpl.
    repeat split; try lia; try assumption.
  - destruct (IH (S i) Hs) as [k [Hk [Hn [Ha [Hmin Ht]]]]].
    exists k. repeat split; try lia; try assumption.
    intros j l Hj Hl. destruct (Nat.eq_dec j i) as [->|Hne].
    + congruence.
    + apply (Hmin j l); [lia | exact Hl].
Qed.

(** What [detect_title] computes on a page whose text can be read. *)
Lemma detect_title_text (page : Page) (text : str) :
  text_for_title page = Ok (Some text) ->
  detect_title page =
    (if length (candidate_lines text) <? 2 then None
     else scan_author (candidate_lines text) 1 (length (candidate_lines text) - 1)).
Proof.
  intros Ht. unfold detect_title, detect_title_body, candidate_lines.
  rewrite Ht. unfold bind.
  destruct text as [|c text]; [reflexivity|].
  unfold truthy at 1. simpl negb. cbv iota.
  set (raw := firstn 4 (split_nl (c :: text))).
  destruct (length raw <? 2) eqn:E1.
  - apply Nat.ltb_lt in E1.
    assert (E2 : (length (clean_lines raw) <? 2) = true).
    { apply Nat.ltb_lt. pose proof (clean_lines_length raw). lia. }
    now rewrite E2.
  - simpl. now destruct (length (clean_lines raw) <? 2).
Qed.

Lemma title_is_join (lines : list str) (k : nat) :
  1 <= k -> lines <> [] -> Forall Trimmed lines ->
  strip (join [space] (firstn k lines)) = join [space] (firstn k lines).
Proof.
  intros Hk Hne HF. apply Trimmed_strip, join_Trimmed.
  - destruct k; [lia|]. destruct lines; [now elim Hne | discriminate].
  - rewrite <- (firstn_skipn k lines) in HF. now apply Forall_app in HF.
Qed.

(** The scan of the detector over the lines it has cleaned itself: it
    returns the pair [(t, a)] exactly when at least two lines remain and
    there is a first index [i >= 1] whose line is an author line, [a] being
    that line and [t] the lines before it joined by single spaces; and it
    returns nothing exactly when there is no such index. *)
Lemma detect_title_on_candidate_lines :
  forall (page : Page) (text : str),
    text_for_title page = Ok (Some text) ->
    let lines := candidate_lines text in
    (forall t a : str,
        detect_title page = Some {| title := t; author_info := a |}
        <-> 2 <= length lines
            /\ exists i : nat,
                 1 <= i
                 /\ nth_error lines i = Some a
                 /\ AuthorLine a
                 /\ (forall j l, 1 <= j < i -> nth_error lines j = Some l ->
                                 ~ AuthorLine l)
                 /\ t = join [space] (firstn i lines))
    /\ (detect_title page = None
        <-> ~ (2 <= length lines
               /\ exists i a, 1 <= i /\ nth_error lines i = Some a /\ AuthorLine a)).
Proof.
  intros page text Ht lines.
  rewrite (detect_title_text page text Ht). fold lines.
  assert (HT : Forall Trimmed lines) by apply clean_lines_Trimmed.
  destruct (length lines <? 2) eqn:E.
  - apply Nat.ltb_lt in E. split.
    + intros t a. split; [discriminate | intros [H _]; lia].
    + split; [intros _ [H _]; lia | reflexivity].
  - apply Nat.ltb_ge in E.
    assert (Hne : lines <> []) by (intros H; rewrite H in E; simpl in E; lia).
    assert (Hnot : forall l, is_author_line l = false -> ~ AuthorLine l).
    { intros l H HA. apply is_author_line_spec in HA. congruence. }
    split.
    + intros t a. split.
      * intros Hs. split; [exact E|].
        destruct (scan_author_Some _ _ _ _ Hs) as [k [Hk [Hn [Ha [Hmin Htt]]]]].
        simpl in Hn, Ha, Htt. exists k.
        split; [lia|]. split; [exact Hn|].
        split; [now apply is_author_line_spec|].
        split; [intros j l Hj Hl; apply Hnot; now apply (Hmin j l)|].
        rewrite Htt. apply title_is_join; [lia | exact Hne | exact HT].
      * intros [_ [i [Hi [Hn [Ha [Hmin Htt]]]]]].
        assert (Hlt : i < length lines) by (apply nth_error_Some; congruence).
        apply is_author_line_spec in Ha.
        destruct (scan_author lines 1 (length lines - 1)) as [ti|] eqn:Hs.
        -- destruct (scan_author_Some _ _ _ _ Hs) as [k [Hk [Hn' [Ha' [Hmin' Htt']]]]].
           assert (k = i).
           { destruct (Nat.lt_trichotomy k i) as [Hlt'|[Heq|Hgt]]; [|exact Heq|].
             - exfalso. apply (Hmin k (author_info ti)); [lia | exact Hn' |].
               now apply is_author_line_spec.
             - exfalso. rewrite (Hmin' i a) in Ha; [discriminate | lia | exact Hn]. }
           subst k. destruct ti as [t' a']. simpl in *.
           rewrite title_is_join in Htt'; [|lia | exact Hne | exact HT].
           congruence.
        -- exfalso.
           rewrite (scan_author_None _ _ _ Hs ltac:(lia) i a) in Ha;
             [discriminate | lia | exact Hn].
    + split.
      * intros Hs [_ [i [a [Hi [Hn Ha]]]]].
        assert (Hlt : i < length lines) by (apply nth_error_Some; congruence).
        apply is_author_line_spec in Ha.
        rewrite (scan_author_None _ _ _ Hs ltac:(lia) i a) in Ha;
          [discriminate | lia | exact Hn].
      * intros Hno.
        destruct (scan_author lines 1 (length lines - 1)) as [ti|] eqn:Hs;
          [|reflexivity].
        exfalso. apply Hno. split; [exact E|].
        destruct (scan_author_Some _ _ _ _ Hs) as [k [Hk [Hn [Ha _]]]].
        exists k, (author_info ti).
        split; [lia|]. split; [exact Hn|]. now apply is_author_line_spec.
Qed.

(** ** Dicts *)

Section DictFacts.
Context {V : Type}.
Implicit Types (d : Dict.dict V) (k : str) (v : V).

Lemma get_setitem_eq k v d : Dict.get k (Dict.setitem k v d) = Some v.
Proof.
  induction d as [|[k' v'] rest IH]; simpl.
  - now rewrite str_eqb_refl.
  - destruct (str_eqb k k') eqn:E; simpl; rewrite E; [reflexivity | exact IH].
Qed.

Lemma get_setitem_ne k k' v d :
  k <> k' -> Dict.get k' (Dict.setitem k v d) = Dict.get k' d.
Proof.
  intros Hne. induction d as [|[k0 v0] rest IH]; simpl.
  - destruct (str_eqb k' k) eqn:E; [|reflexivity].
    apply str_eqb_eq in E. congruence.
  - destruct (str_eqb k k0) eqn:E; simpl.
    + apply str_eqb_eq in E. subst k0.
      destruct (str_eqb k' k) eqn:E'; [|reflexivity].
      apply str_eqb_eq in E'. congruence.
    + now rewrite IH.
Qed.

Lemma get_None_keys k d : Dict.get k d = None <-> ~ In k (Dict.keys d).
Proof.
  induction d as [|[k' v'] rest IH]; simpl; [tauto|].
  destruct (str_eqb k k') eqn:E.
  - apply str_eqb_eq in E. subst. split; [discriminate | tauto].
  - apply str_eqb_neq in E. rewrite IH. split; [intros H [H'|H']; congruence | tauto].
Qed.

Lemma keys_setitem_old k v v' d :
  Dict.get k d = Some v' -> Dict.keys (Dict.setitem k v d) = Dict.keys d.
Proof.
  induction d as [|[k0 v0] rest IH]; simpl; [discriminate|].
  destruct (str_eqb k k0) eqn:E; [reflexivity|].
  intros H. simpl. now rewrite (IH H).
Qed.

Lemma keys_setitem_new k v d :
  Dict.get k d = None -> Dict.keys (Dict.setitem k v d) = Dict.keys d ++ [k].
Proof.
  induction d as [|[k0 v0] rest IH]; simpl; [reflexivity|].
  destruct (str_eqb k k0) eqn:E; [discriminate|].
  intros H. simpl. now rewrite (IH H).
Qed.

Lemma mem_get k d :
  Dict.mem k d = match Dict.get k d with Some _ => true | None => false end.
Proof. reflexivity. Qed.

Lemma nonempty_has_key d : d <> [] -> exists k v, Dict.get k d = Some v.
Proof.
  destruct d as [|[k v] rest]; [intros H; now elim H|].
  intros _. exists k, v. simpl. now rewrite str_eqb_refl.
Qed.

End DictFacts.

(** ** One page of the segmented run *)

Lemma extend_nil (s : SectionData) : extend s [] = s.
Proof. destruct s. unfold extend. simpl. now rewrite app_nil_r. Qed.

Lemma extend_extend (s : SectionData) (a b : list str) :
  extend (extend s a) b = extend s (a ++ b).
Proof. unfold extend. simpl. now rewrite app_assoc. Qed.

Lemma page_texts_short (page : Page) :
  page_texts page = [] \/ exists txt, page_texts page = [txt].
Proof.
  unfold page_texts. destruct (text_for_body page) as [[full_text|]|]; auto.
  destruct (truthy full_text && _); eauto.
Qed.

(** The title step: where it leaves the active title, and what it does to
    the entry of any title [t]. *)
Lemma title_step_snd (self : Extractor) (cur : str) (page : Page) :
  snd (title_step (self, cur) page) = title_after cur page.
Proof.
  unfold title_step, title_after. destruct (detect_title page) as [ti|]; [|reflexivity].
  now destruct (negb _).
Qed.

Lemma title_step_get (self : Extractor) (cur : str) (page : Page) (t : str) :
  Dict.get t (sections (fst (title_step (self, cur) page))) =
    match Dict.get t (sections self) with
    | Some s => Some s
    | None =>
        match detect_title page with
        | Some ti =>
            if str_eqb (title ti) t
            then Some {| s_title := title ti;
                         s_author_info := author_info ti;
                         content := [] |}
            else None
        | None => None
        end
    end.
Proof.
  unfold title_step. destruct (detect_title page) as [ti|]; simpl.
  - rewrite mem_get.
    destruct (Dict.get (title ti) (sections self)) as [s0|] eqn:E0; simpl.
    + destruct (Dict.get t (sections self)) eqn:Et; [reflexivity|].
      destruct (str_eqb (title ti) t) eqn:E; [|reflexivity].
      apply str_eqb_eq in E. congruence.
    + destruct (str_eqb (title ti) t) eqn:E.
      * apply str_eqb_eq in E. subst t. now rewrite get_setitem_eq, E0.
      * apply str_eqb_neq in E. rewrite (get_setitem_ne _ _ _ _ E).
        now destruct (Dict.get t (sections self)).
  - now destruct (Dict.get t (sections self)).
Qed.

Lemma title_step_mem (self : Extractor) (cur : str) (page : Page) :
  Dict.mem (title_after cur page) (sections (fst (title_step (self, cur) page)))
  = filed_after (Dict.mem cur (sections self)) page.
Proof.
  rewrite mem_get, title_step_get. unfold title_after, filed_after.
  destruct (detect_title page) as [ti|].
  - destruct (Dict.get (title ti) (sections self)); [reflexivity|].
    now rewrite str_eqb_refl.
  - rewrite mem_get. now destruct (Dict.get cur (sections self)).
Qed.

Lemma title_step_keys (self : Extractor) (cur : str) (page : Page) :
  NoDup (Dict.keys (sections self)) ->
  NoDup (Dict.keys (sections (fst (title_step (self, cur) page)))).
Proof.
  intros Hnd. unfold title_step. destruct (detect_title page) as [ti|]; [|exact Hnd].
  rewrite mem_get.
  destruct (Dict.get (title ti) (sections self)) eqn:E; simpl; [exact Hnd|].
  rewrite (keys_setitem_new _ _ _ E).
  apply NoDup_app; [exact Hnd | repeat constructor; intros [] |].
  intros k Hk [<-|[]]. now apply get_None_keys in E.
Qed.

(** The inner block with its handler: what it does to the registry. *)
Lemma body_sections (self : Extractor) (cur : str) (page : Page) :
  let st' := try_except (page_body (self, cur) page) (self, cur) in
  snd st' = cur
  /\ sections (fst st') =
       match page_texts page, Dict.get cur (sections self) with
       | txt :: _, Some s =>
           Dict.setitem cur (append_content s txt) (sections self)
       | _, _ => sections self
       end.
Proof.
  unfold page_body, page_texts.
  destruct (text_for_body page) as [[full_text|]|]; simpl; auto.
  destruct (truthy full_text); simpl; auto.
  destruct (truthy (keyword_filter (split_nl full_text))); simpl; auto.
  unfold Dict.getitem.
  destruct (Dict.get cur (sections self)); simpl; auto.
Qed.

Lemma body_get (self : Extractor) (cur : str) (page : Page) (t : str) :
  Dict.get t (sections (fst (try_except (page_body (self, cur) page) (self, cur))))
  = option_map
      (fun s => extend s (if Dict.mem cur (sections self) && str_eqb cur t
                          then page_texts page else []))
      (Dict.get t (sections self)).
Proof.
  destruct (body_sections self cur page) as [_ ->]. rewrite mem_get.
  destruct (page_texts_short page) as [-> | [txt ->]].
  - destruct (Dict.get t (sections self)); cbn [option_map]; [|reflexivity].
    destruct (_ && _); now rewrite extend_nil.
  - destruct (Dict.get cur (sections self)) as [sc|] eqn:Ec.
    + destruct (str_eqb cur t) eqn:E.
      * apply str_eqb_eq in E. subst t. now rewrite get_setitem_eq, Ec.
      * apply str_eqb_neq in E. rewrite (get_setitem_ne _ _ _ _ E).
        destruct (Dict.get t (sections self)); cbn [option_map andb]; [|reflexivity].
        now rewrite extend_nil.
    + destruct (Dict.get t (sections self)); cbn [option_map andb]; [|reflexivity].
      now rewrite extend_nil.
Qed.

Lemma body_keys (self : Extractor) (cur : str) (page : Page) :
  Dict.keys (sections (fst (try_except (page_body (self, cur) page) (self, cur))))
  = Dict.keys (sections self).
Proof.
  destruct (body_sections self cur page) as [_ ->].
  destruct (page_texts page); [reflexivity|].
  destruct (Dict.get cur (sections self)) eqn:E; [|reflexivity].
  now rewrite (keys_setitem_old _ _ _ _ E).
Qed.

(** One iteration of the page loop. *)
Lemma loop_body_snd (self : Extractor) (cur : str) (page : Page) :
  snd (loop_body (self, cur) page) = title_after cur page.
Proof.
  unfold loop_body. pose proof (title_step_snd self cur page) as H.
  destruct (title_step (self, cur) page) as [self1 cur1]. simpl in H. subst cur1.
  apply body_sections.
Qed.

Lemma loop_body_get (self : Extractor) (cur : str) (page : Page) (t : str) :
  Dict.get t (sections (fst (loop_body (self, cur) page))) =
    let filed := filed_after (Dict.mem cur (sections self)) page in
    let texts := if filed && str_eqb (title_after cur page) t
                 then page_texts page else [] in
    match Dict.get t (sections self) with
    | Some s => Some (extend s texts)
    | None =>
        match detect_title page with
        | Some ti =>
            if str_eqb (title ti) t
            then Some {| s_title := title ti;
                         s_author_info := author_info ti;
                         content := page_texts page |}
            else None
        | None => None
        end
    end.
Proof.
  unfold loop_body.
  pose proof (title_step_snd self cur page) as Hs.
  pose proof (title_step_get self cur page t) as Hg.
  pose proof (title_step_mem self cur page) as Hm.
  destruct (title_step (self, cur) page) as [self1 cur1].
  simpl in Hs, Hg, Hm. subst cur1.
  rewrite body_get, Hg, Hm. cbv zeta.
  destruct (Dict.get t (sections self)) as [s|] eqn:Et; [reflexivity|].
  unfold title_after, filed_after.
  destruct (detect_title page) as [ti|]; [|reflexivity].
  destruct (str_eqb (title ti) t); [|reflexivity].
  reflexivity.
Qed.

Lemma loop_body_mem (self : Extractor) (cur : str) (page : Page) :
  Dict.mem (title_after cur page) (sections (fst (loop_body (self, cur) page)))
  = filed_after (Dict.mem cur (sections self)) page.
Proof.
  unfold loop_body.
  pose proof (title_step_snd self cur page) as Hs.
  pose proof (title_step_mem self cur page) as Hm.
  destruct (title_step (self, cur) page) as [self1 cur1].
  simpl in Hs, Hm. subst cur1.
  rewrite mem_get, body_get, <- Hm, mem_get.
  now destruct (Dict.get (title_after cur page) (sections self1)).
Qed.

Lemma loop_body_keys (self : Extractor) (cur : str) (page : Page) :
  NoDup (Dict.keys (sections self)) ->
  NoDup (Dict.keys (sections (fst (loop_body (self, cur) page)))).
Proof.
  intros Hnd. unfold loop_body.
  pose proof (title_step_keys self cur page Hnd) as Hk.
  destruct (title_step (self, cur) page) as [self1 cur1]. simpl in Hk.
  now rewrite body_keys.
Qed.

(** ** The whole run *)

Lemma for_pages_keys (pages : list Page) (self : Extractor) (cur : str) :
  NoDup (Dict.keys (sections self)) ->
  NoDup (Dict.keys (sections (fst (for_pages (self, cur) pages)))).
Proof.
  revert self cur. induction pages as [|page rest IH]; intros self cur Hnd;
    [exact Hnd|].
  unfold for_pages. simpl.
  pose proof (loop_body_keys self cur page Hnd) as Hk.
  destruct (loop_body (self, cur) page) as [self1 cur1]. now apply IH.
Qed.

Lemma for_pages_get (pages : list Page) (self : Extractor) (cur t : str) :
  Dict.get t (sections (fst (for_pages (self, cur) pages))) =
    let texts := routed t cur (Dict.mem cur (sections self)) pages in
    match Dict.get t (sections self) with
    | Some s => Some (extend s texts)
    | None =>
        match first_author t pages with
        | Some a => Some {| s_title := t; s_author_info := a; content := texts |}
        | None => None
        end
    end.
Proof.
  revert self cur. induction pages as [|page rest IH]; intros self cur.
  - simpl. destruct (Dict.get t (sections self)); [|reflexivity].
    now rewrite extend_nil.
  - unfold for_pages. simpl fold_left.
    pose proof (loop_body_snd self cur page) as Hs.
    pose proof (loop_body_get self cur page t) as Hg.
    pose proof (loop_body_mem self cur page) as Hm.
    destruct (loop_body (self, cur) page) as [self1 cur1].
    simpl in Hs, Hg, Hm. subst cur1.
    change (fold_left loop_body rest (self1, title_after cur page))
      with (for_pages (self1, title_after cur page) rest).
    rewrite IH, Hg, Hm. cbv zeta. simpl routed. simpl first_author.
    destruct (Dict.get t (sections self)) as [s|] eqn:Et.
    + now rewrite extend_extend.
    + unfold title_after, filed_after.
      destruct (detect_title page) as [ti|] eqn:Ed.
      * destruct (str_eqb (title ti) t) eqn:E.
        -- apply str_eqb_eq in E. subst t. reflexivity.
        -- reflexivity.
      * destruct (str_eqb cur t) eqn:E.
        -- apply str_eqb_eq in E. subst t. rewrite mem_get, Et. reflexivity.
        -- now rewrite andb_false_r.
Qed.

Lemma extract_text_run (self : Extractor) (pdf : Document) :
  extract_text self pdf =
    if validate_pdf pdf
    then let self' := fst (for_pages (self, default_title) (processed_pages pdf)) in
         (0 <? length (sections self'), self')
    else (false, self).
Proof.
  unfold extract_text, processed_pages, validate_pdf.
  destruct (path_exists pdf); [|reflexivity].
  destruct (path_isfile pdf); [|reflexivity].
  destruct (pdfplumber_open pdf) as [pages|e]; simpl; [|reflexivity].
  destruct (length pages =? 0); simpl; [reflexivity|].
  now destruct (for_pages (self, default_title) pages).
Qed.

Lemma processed_pages_invalid (pdf : Document) :
  validate_pdf pdf = false -> processed_pages pdf = [].
Proof. unfold processed_pages. now intros ->. Qed.

Lemma first_author_Some (t : str) (pages : list Page) (a : str) :
  first_author t pages = Some a ->
  exists page ti, In page pages /\ detect_title page = Some ti /\ title ti = t.
Proof.
  induction pages as [|page rest IH]; simpl; [discriminate|].
  destruct (detect_title page) as [ti|] eqn:Ed.
  - destruct (str_eqb (title ti) t) eqn:E.
    + intros _. apply str_eqb_eq in E. exists page, ti. auto.
    + intros H. destruct (IH H) as [p [ti' [Hin H']]]. exists p, ti'. auto.
  - intros H. destruct (IH H) as [p [ti' [Hin H']]]. exists p, ti'. auto.
Qed.

Lemma first_author_detected (pages : list Page) (page : Page) (ti : TitleInfo) :
  In page pages -> detect_title page = Some ti ->
  exists a, first_author (title ti) pages = Some a.
Proof.
  induction pages as [|p rest IH]; simpl; [tauto|].
  intros [->|Hin] Hd.
  - rewrite Hd, str_eqb_refl. eauto.
  - destruct (detect_title p) as [ti'|]; [|now apply IH].
    destruct (str_eqb (title ti') (title ti)); [eauto | now apply IH].
Qed.

Import Samples.

(** The documented example heading is detected, with its title and its
    author line. *)
Example detect_title_heading :
  detect_title (page_of heading_text)
  = Some {| title := lit "Understanding Systems"; author_info := jane |}.
Proof. vm_compute. reflexivity. Qed.

Example detect_title_one_line :
  detect_title (page_of plain_text) = None.
Proof. vm_compute. reflexivity. Qed.

(** ** The section accumulator *)

Lemma routed_at_detection (t cur : str) (filed : bool)
    (before : list Page) (page : Page) (after : list Page) (ti : TitleInfo) :
  detect_title page = Some ti -> title ti = t ->
  routed t cur filed (before ++ page :: after)
  = routed t cur filed before ++ page_texts page ++ routed t t true after.
Proof.
  intros Hd Ht. revert cur filed.
  induction before as [|p rest IH]; intros cur filed; simpl.
  - unfold title_after, filed_after. rewrite Hd, Ht, str_eqb_refl. reflexivity.
  - rewrite IH. now rewrite app_assoc.
Qed.

Lemma registry_after_run (pdf : Document) (t : str) :
  Dict.get t (sections (snd (extract_text init pdf))) =
    match first_author t (processed_pages pdf) with
    | Some a =>
        Some {| s_title := t;
                s_author_info := a;
                content := routed t default_title false (processed_pages pdf) |}
    | None => None
    end.
Proof.
  rewrite extract_text_run. destruct (validate_pdf pdf) eqn:Ev.
  - cbv zeta. cbn [snd]. now rewrite for_pages_get.
  - now rewrite (processed_pages_invalid pdf Ev).
Qed.

(** C6.  After a run, the registry has one section per title.  The section
    of a title holds the author-info of the first page on which that title
    was detected, and as content the texts of the pages filed under it, in
    page order; every page on which the title is detected again has its
    text in that content, after the texts of the pages before it and before
    those of the pages after it, and leaves the author-info as it was. *)
Theorem C6_repeated_title_single_section :
  forall pdf : Document,
    let pages := processed_pages pdf in
    let registry := sections (snd (extract_text init pdf)) in
    NoDup (Dict.keys registry)
    /\ (forall t : str,
           Dict.get t registry =
             match first_author t pages with
             | Some a =>
                 Some {| s_title := t;
                         s_author_info := a;
                         content := routed t default_title false pages |}
             | None => None
             end)
    /\ (forall before page after ti,
           pages = before ++ page :: after ->
           detect_title page = Some ti ->
           exists a,
             first_author (title ti) pages = Some a
             /\ (first_author (title ti) before = None -> a = author_info ti)
             /\ (forall a0, first_author (title ti) before = Some a0 -> a = a0)
             /\ Dict.get (title ti) registry =
                  Some {| s_title := title ti;
                          s_author_info := a;
                          content :=
                            routed (title ti) default_title false before
                            ++ page_texts page
                            ++ routed (title ti) (title ti) true after |}).
Proof.
  intros pdf pages registry. split; [|split].
  - unfold registry. rewrite extract_text_run.
    destruct (validate_pdf pdf); [|constructor].
    cbv zeta. cbn [snd]. apply for_pages_keys. constructor.
  - intros t. apply registry_after_run.
  - intros before page after ti Hp Hd.
    assert (Hfa : first_author (title ti) (before ++ page :: after)
                  = match first_author (title ti) before with
                    | Some a0 => Some a0
                    | None => Some (author_info ti)
                    end).
    { clear Hp. induction before as [|p rest IH]; simpl.
      - now rewrite Hd, str_eqb_refl.
      - destruct (detect_title p) as [ti'|]; [|exact IH].
        destruct (str_eqb (title ti') (title ti)); [reflexivity | exact IH]. }
    unfold registry, pages in *. rewrite registry_after_run, Hp, Hfa.
    rewrite (routed_at_detection _ _ _ _ _ _ ti Hd eq_refl).
    destruct (first_author (title ti) before) as [a0|].
    + exists a0. repeat split; [discriminate | congruence].
    + exists (author_info ti). repeat split; [discriminate].
Qed.

(** Two pages under the same heading, with a plain page between them: one
    section, the first author line, three texts in page order. *)
Example same_title_twice :
  sections (snd (extract_text init
                   (document_of [page_of heading_text; page_of plain_text;
                                 page_of heading_again_text])))
  = [(lit "Understanding Systems",
      {| s_title := lit "Understanding Systems";
         s_author_info := jane;
         content :=
           [lit "Understanding Systems " ++ jane ++ lit " Body line";
            lit "Plain body text";
            lit "Understanding Systems " ++ john ++ lit " More body"] |})].
Proof. vm_compute. reflexivity. Qed.

(** C10.  [extract_text] on a fresh extractor returns [True] exactly when
    the title detector found a heading on some page of the run, which is
    exactly when the registry is not empty at the end; the texts of the pages
    play no part. *)
Theorem C10_success_iff_title_detected :
  forall pdf : Document,
    (fst (extract_text init pdf) = true
     <-> exists page ti,
           In page (processed_pages pdf) /\ detect_title page = Some ti)
    /\ (fst (extract_text init pdf) = true
        <-> sections (snd (extract_text init pdf)) <> []).
Proof.
  intros pdf.
  assert (H2 : fst (extract_text init pdf) = true
               <-> sections (snd (extract_text init pdf)) <> []).
  { rewrite extract_text_run. destruct (validate_pdf pdf); cbv zeta; cbn [fst snd].
    - destruct (sections _); simpl; split; intros H;
        try discriminate; try reflexivity; now elim H.
    - simpl. split; intros H; [discriminate | now elim H]. }
  split; [|exact H2]. rewrite H2. split.
  - intros Hne. destruct (nonempty_has_key _ Hne) as [k [v Hk]].
    rewrite registry_after_run in Hk.
    destruct (first_author k (processed_pages pdf)) as [a|] eqn:Ea; [|discriminate].
    destruct (first_author_Some _ _ _ Ea) as [page [ti [Hin [Hd _]]]].
    now exists page, ti.
  - intros [page [ti [Hin Hd]]] Hnil.
    destruct (first_author_detected _ _ _ Hin Hd) as [a Ha].
    pose proof (registry_after_run pdf (title ti)) as Hr.
    rewrite Ha, Hnil in Hr. discriminate.
Qed.

(** A readable document with text on its page and no heading: the run
    reports failure. *)
Example readable_without_heading_fails :
  fst (extract_text init (document_of [page_of plain_text])) = false.
Proof. vm_compute. reflexivity. Qed.

(** C1, on the code.  The registry is empty after [__init__]; a page met
    before any title has its text looked up under the default title, which
    has no section, and the text is lost: the run ends with the registry
    still empty and reports failure. *)
Theorem C1_text_before_first_title_is_lost :
  sections init = []
  /\ page_texts (page_of plain_text) = [lit "Plain body text"]
  /\ page_body (init, default_title) (page_of plain_text)
     = Raise (KeyError default_title)
  /\ extract_text init (document_of [page_of plain_text]) = (false, init).
Proof. vm_compute. repeat split. Qed.

(** The same for any run on which no title is detected. *)
Lemma untitled_run_keeps_nothing (pdf : Document) :
  (forall page, In page (processed_pages pdf) -> detect_title page = None) ->
  sections (snd (extract_text init pdf)) = [].
Proof.
  intros Hno. destruct (sections (snd (extract_text init pdf))) eqn:E; [reflexivity|].
  assert (Hne : sections (snd (extract_text init pdf)) <> []) by (rewrite E; discriminate).
  destruct (nonempty_has_key _ Hne) as [k [v Hk]].
  rewrite registry_after_run in Hk.
  destruct (first_author k (processed_pages pdf)) as [a|] eqn:Ea; [|discriminate].
  destruct (first_author_Some _ _ _ Ea) as [page [ti [Hin [Hd _]]]].
  rewrite (Hno page Hin) in Hd. discriminate.
Qed.

(** ** Failures of one page *)

Lemma detect_title_unreadable (page : Page) :
  match text_for_title page with
  | Ok (Some (_ :: _)) => True
  | _ => detect_title page = None
  end.
Proof.
  unfold detect_title, detect_title_body.
  now destruct (text_for_title page) as [[[|c text]|]|e].
Qed.

Lemma loop_body_raise (st : LoopState) (page : Page) (e : exn) :
  page_body (title_step st page) page = Raise e ->
  loop_body st page = title_step st page.
Proof. unfold loop_body. now intros ->. Qed.

Lemma page_body_unreadable (st : LoopState) (page : Page) :
  match text_for_body page with
  | Ok (Some (_ :: _)) => True
  | Ok _ => page_body st page = Ok st
  | Raise e => page_body st page = Raise e
  end.
Proof.
  unfold page_body. destruct st as [self cur].
  now destruct (text_for_body page) as [[[|c text]|]|e].
Qed.

Lemma title_step_no_title (st : LoopState) (page : Page) :
  detect_title page = None -> title_step st page = st.
Proof. unfold title_step. destruct st as [self cur]. now intros ->. Qed.

Lemma for_pages_app (st : LoopState) (before after : list Page) :
  for_pages st (before ++ after) = for_pages (for_pages st before) after.
Proof. apply fold_left_app. Qed.

(** C9.  A failure on one page stays on that page.  The title detector
    answers "no title" when the page text raises, is [None] or is empty.  An
    exception anywhere in the page's extraction block, and one raised by
    reading the text in particular, leaves the run in the state the title
    step reached: nothing is added to any section.  In every case the next
    pages are processed from there, and a page that fails in both places
    leaves the run as if the page were not in the document. *)
Theorem C9_page_failures_are_local :
  (forall h body e,
      detect_title {| height := h; text_for_title := Raise e;
                      text_for_body := body |} = None)
  /\ (forall h body,
         detect_title {| height := h; text_for_title := Ok None;
                         text_for_body := body |} = None)
  /\ (forall h body,
         detect_title {| height := h; text_for_title := Ok (Some []);
                         text_for_body := body |} = None)
  /\ (forall st page e,
         page_body (title_step st page) page = Raise e ->
         loop_body st page = title_step st page)
  /\ (forall st page e,
         text_for_body page = Raise e ->
         loop_body st page = title_step st page)
  /\ (forall st before page after,
         for_pages st (before ++ page :: after)
         = for_pages (loop_body (for_pages st before) page) after)
  /\ (forall st before page after e1 e2,
         text_for_title page = Raise e1 ->
         text_for_body page = Raise e2 ->
         for_pages st (before ++ page :: after) = for_pages st (before ++ after)).
Proof.
  repeat split.
  - intros st page e. apply loop_body_raise.
  - intros st page e He.
    pose proof (page_body_unreadable (title_step st page) page) as H.
    rewrite He in H. now apply (loop_body_raise _ _ e).
  - intros st before page after. now rewrite for_pages_app.
  - intros st before page after e1 e2 H1 H2. rewrite !for_pages_app.
    change (for_pages (for_pages st before) (page :: after))
      with (for_pages (loop_body (for_pages st before) page) after).
    pose proof (page_body_unreadable (title_step (for_pages st before) page) page) as H.
    rewrite H2 in H. rewrite (loop_body_raise _ _ e2 H).
    rewrite title_step_no_title; [reflexivity|].
    pose proof (detect_title_unreadable page) as Hd. now rewrite H1 in Hd.
Qed.

(** An unreadable page between two readable ones: the run goes on and
    files the third page under the heading of the first. *)
Example run_past_unreadable_page :
  extract_text init
    (document_of [page_of heading_text; unreadable_page; page_of plain_text])
  = extract_text init (document_of [page_of heading_text; page_of plain_text]).
Proof. vm_compute. reflexivity. Qed.

(** ** The segmented writer *)

Lemma save_sections_skip (fs : FileSystem) (before after : Dict.dict SectionData)
    (t : str) (sec : SectionData) (written : list File) :
  content sec = [] ->
  save_sections fs (before ++ (t, sec) :: after) written
  = save_sections fs (before ++ after) written.
Proof.
  intros Hc. revert written.
  induction before as [|[t0 s0] rest IH]; intros written; simpl.
  - now rewrite Hc.
  - destruct (negb (truthy (content s0))); [apply IH|].
    destruct (open_ok fs _); [apply IH | reflexivity].
Qed.

Lemma save_sections_all (fs : FileSystem) (items : Dict.dict SectionData)
    (written : list File) :
  (forall name, open_ok fs name = true) ->
  save_sections fs items written
  = (written ++ map section_file (filter has_content items), true).
Proof.
  intros Hok. revert written.
  induction items as [|[t0 s0] rest IH]; intros written; simpl.
  - now rewrite app_nil_r.
  - unfold has_content at 1. simpl.
    destruct (truthy (content s0)); simpl; [|apply IH].
    rewrite Hok, IH, <- app_assoc. reflexivity.
Qed.

(** C5, as the code has it.  A section whose content sequence is empty,
    nothing having been appended to it, gets no file: the writer does what it
    would do without that section in the registry, and when every write
    succeeds the files are those of the other sections that have content. *)
Theorem C5_empty_section_not_written :
  forall (self : Extractor) (fs : FileSystem)
         (before after : Dict.dict SectionData) (t : str) (sec : SectionData),
    sections self = before ++ (t, sec) :: after ->
    content sec = [] ->
    save_to_files self fs = save_to_files (set_sections self (before ++ after)) fs
    /\ (makedirs_ok fs = true ->
        (forall name, open_ok fs name = true) ->
        save_to_files self fs
        = (map section_file (filter has_content (before ++ after)), true)).
Proof.
  intros self fs before after t sec Hs Hc. unfold save_to_files.
  rewrite Hs. cbn [sections set_sections].
  rewrite (save_sections_skip fs before after t sec [] Hc).
  split; [reflexivity|].
  intros -> Hok. simpl. now rewrite save_sections_all.
Qed.

(** A heading with the footer keyword on each of its lines and nothing
    else on the page: the section is there, empty, and no file is written. *)
Lemma C5_empty_section_witness :
  save_to_files
    (snd (extract_text init (document_of [page_of empty_section_text]))) fs_ok
  = save_to_files
      (set_sections
         (snd (extract_text init (document_of [page_of empty_section_text]))) [])
      fs_ok
  /\ (makedirs_ok fs_ok = true ->
      (forall name, open_ok fs_ok name = true) ->
      save_to_files
        (snd (extract_text init (document_of [page_of empty_section_text]))) fs_ok
      = ([], true)).
Proof.
  exact (C5_empty_section_not_written
           (snd (extract_text init (document_of [page_of empty_section_text])))
           fs_ok [] []
           (lit "xxx Annual Report")
           {| s_title := lit "xxx Annual Report";
              s_author_info := author_marker ++ lit ": xxx Press";
              content := [] |}
           eq_refl eq_refl).
Defined.

(** C5 as stated fails.  The heading page also holds a line with one
    space: that line is retained, its normalized text is empty, and the empty
    text is appended.  No text that is not blank was ever appended to the
    section, and the writer produces its file. *)
Lemma C5_blank_section_is_written :
  Dict.get (lit "xxx Annual Report")
    (sections (snd (extract_text init (document_of [page_of blank_section_text]))))
  = Some {| s_title := lit "xxx Annual Report";
            s_author_info := author_marker ++ lit ": xxx Press";
            content := [[]] |}
  /\ save_to_files
       (snd (extract_text init (document_of [page_of blank_section_text]))) fs_ok
     = ([(lit "xxx Annual Report.txt",
          lines_of [lit "xxx Annual Report"; author_marker ++ lit ": xxx Press";
                    []; []])],
        true).
Proof. vm_compute. split; reflexivity. Qed.

(** ** The positional boilerplate filter *)

Module FlatFacts.
Import Flat FlatSpec FlatSamples.

Lemma ltb_lt (x y : Q) : ltb x y = true <-> (x < y)%Q.
Proof.
  unfold ltb. rewrite negb_true_iff, <- not_true_iff_false, Qle_bool_iff. split.
  - apply Qnot_le_lt.
  - apply Qlt_not_le.
Qed.

Lemma in_band_spec (page : Page) (hh fh : Q) (line : str) :
  in_band page hh fh line = true
  <-> exists line_top others,
        search page line = Ok (line_top :: others)
        /\ (hh < line_top)%Q /\ (line_top < fh)%Q.
Proof.
  unfold in_band. destruct (search page line) as [[|top others]|e].
  - split; [discriminate | intros [t [o [H _]]]; discriminate].
  - rewrite andb_true_iff, !ltb_lt. split.
    + intros [H1 H2]. now exists top, others.
    + intros [t [o [H [H1 H2]]]]. injection H as -> ->. now split.
  - split; [discriminate | intros [t [o [H _]]]; discriminate].
Qed.

(** The loop, when it ends without an exception, has kept the lines in the
    band. *)
Lemma positional_filter_loop_Ok (page : Page) (hh fh : Q)
    (lines filtered_lines result_lines : list str) :
  positional_filter_loop page hh fh lines filtered_lines = Ok result_lines ->
  result_lines = filtered_lines ++ filter (in_band page hh fh) lines.
Proof.
  revert filtered_lines. induction lines as [|line rest IH]; intros acc; simpl.
  - intros H. injection H as <-. now rewrite app_nil_r.
  - unfold in_band at 1. destruct (search page line) as [[|top others]|e]; simpl.
    + apply IH.
    + destruct (ltb hh top && ltb top fh).
      * intros H. rewrite (IH _ H), <- app_assoc. reflexivity.
      * apply IH.
    + discriminate.
Qed.

(** It ends without an exception when no lookup raises. *)
Lemma positional_filter_loop_returns (page : Page) (hh fh : Q)
    (lines filtered_lines : list str) :
  lookups_return page lines ->
  positional_filter_loop page hh fh lines filtered_lines
  = Ok (filtered_lines ++ filter (in_band page hh fh) lines).
Proof.
  revert filtered_lines. induction lines as [|line rest IH]; intros acc Hret; simpl.
  - now rewrite app_nil_r.
  - assert (Hrest : lookups_return page rest).
    { intros l Hl. apply Hret. now right. }
    destruct (Hret line (or_introl eq_refl)) as [matches Hm].
    unfold in_band at 1. rewrite Hm. simpl. destruct matches as [|top others].
    + now apply IH.
    + destruct (ltb hh top && ltb top fh).
      * rewrite (IH _ Hrest), <- app_assoc. reflexivity.
      * now apply IH.
Qed.

Section Product.
Variable mul : Q -> Q -> Q.

(** On a page whose lookups all return, the positional filter gives the
    lines of the page that pass the band test, in page order. *)
Lemma positional_filter_band :
  forall (self : Extractor) (page : Page) (full_text : str),
    lookups_return page (split_nl full_text) ->
    exists filtered_lines,
      positional_filter mul self page full_text = Ok filtered_lines
      /\ filtered_lines
         = filter (in_band page (header_height mul self page)
                     (footer_height mul self page))
             (split_nl full_text)
      /\ Subseq filtered_lines (split_nl full_text)
      /\ (forall line,
             In line filtered_lines
             <-> In line (split_nl full_text)
                 /\ exists t others,
                      search page line = Ok (t :: others)
                      /\ (mul (height page) (header_threshold self) < t)%Q
                      /\ (t < mul (height page) (footer_threshold self))%Q)
      /\ (forall line, search page line = Ok [] -> ~ In line filtered_lines).
Proof.
  intros self page full_text Hret.
  exists (filter (in_band page (header_height mul self page)
                    (footer_height mul self page)) (split_nl full_text)).
  split; [|split; [reflexivity|split; [apply filter_Subseq|split]]].
  - unfold positional_filter. now rewrite positional_filter_loop_returns.
  - intros line. rewrite filter_In, in_band_spec. reflexivity.
  - intros line Hnone Hin. apply filter_In in Hin. destruct Hin as [_ Hb].
    unfold in_band in Hb. rewrite Hnone in Hb. discriminate.
Qed.

(** C4, as the code has it.  A line whose looked-up top offset equals
    [footer_height] is not retained: the comparison is strict. *)
Theorem C4_line_at_footer_height_dropped :
  forall (self : Extractor) (page : Page) (full_text line : str)
         (t : Q) (others : list Q) (filtered_lines : list str),
    search page line = Ok (t :: others) ->
    (t == footer_height mul self page)%Q ->
    positional_filter mul self page full_text = Ok filtered_lines ->
    ~ In line filtered_lines.
Proof.
  intros self page full_text line t others filtered_lines Hs Heq Hf Hin.
  unfold positional_filter in Hf. apply positional_filter_loop_Ok in Hf.
  simpl in Hf. subst filtered_lines. apply filter_In in Hin.
  destruct Hin as [_ Hb]. apply in_band_spec in Hb.
  destruct Hb as [t' [o' [Hs' [_ Hlt]]]]. rewrite Hs in Hs'. injection Hs' as <- <-.
  rewrite Heq in Hlt. exact (Qlt_irrefl _ Hlt).
Qed.

End Product.

Lemma sample_lookups_return : lookups_return sample_page (split_nl sample_text).
Proof.
  intros line _. simpl. unfold sample_search.
  repeat (destruct (str_eqb line _); [eauto|]). eauto.
Qed.

Example sample_page_filtered :
  positional_filter Qmult init sample_page sample_text = Ok [lit "Body text"].
Proof. vm_compute. reflexivity. Qed.

(** C4 as stated fails: the page number of the sample page sits at offset
    80, which is the footer height of a page of height 100 under the default
    threshold, and it is not among the retained lines. *)
Lemma C4_line_at_footer_height_not_retained :
  search sample_page (lit "Page 3") = Ok [80%Q]
  /\ (80 == footer_height Qmult init sample_page)%Q
  /\ positional_filter Qmult init sample_page sample_text = Ok [lit "Body text"]
  /\ ~ In (lit "Page 3") [lit "Body text"].
Proof.
  split; [reflexivity|]. split; [reflexivity|]. split; [vm_compute; reflexivity|].
  intros [H|[]]. discriminate.
Qed.

(** The hypotheses of the amended C4 met on the sample page. *)
Lemma C4_line_at_footer_height_witness :
  (80 == footer_height Qmult init sample_page)%Q
  /\ ~ In (lit "Page 3") [lit "Body text"].
Proof.
  split; [reflexivity|].
  exact (C4_line_at_footer_height_dropped Qmult init sample_page sample_text
           (lit "Page 3") 80%Q [] [lit "Body text"]
           eq_refl (eq_refl : (80 == footer_height Qmult init sample_page)%Q)
           eq_refl).
Defined.

End FlatFacts.

(** * Further properties of the two extractors *)

(** ** File names *)

Lemma underscore_is_safe : existsb (N.eqb 95) unsafe_chars = false.
Proof. reflexivity. Qed.

Lemma unsafe_chars_In (c : char) :
  existsb (N.eqb c) unsafe_chars = true <-> In c unsafe_chars.
Proof.
  rewrite existsb_exists. split.
  - intros [x [Hin Hx]]. apply N.eqb_eq in Hx. now subst.
  - intros Hin. exists c. split; [exact Hin | apply N.eqb_refl].
Qed.

(** X1.  The file name made from a title has the length of the title; at
    every position a character of the nine reserved ones has become an
    underscore and any other character is the one of the title; no reserved
    character is left, so the name has no path separator; and a name made
    from a name is that name. *)
Theorem X1_safe_title_replaces_reserved :
  forall title : str,
    length (safe_title title) = length title
    /\ (forall i c, nth_error title i = Some c ->
          (In c unsafe_chars -> nth_error (safe_title title) i = Some 95%N)
          /\ (~ In c unsafe_chars -> nth_error (safe_title title) i = Some c))
    /\ (forall c, In c (safe_title title) -> ~ In c unsafe_chars)
    /\ safe_title (safe_title title) = safe_title title.
Proof.
  intros title. unfold safe_title. split; [apply length_map|]. split; [|split].
  - intros i c Hc. rewrite (map_nth_error _ _ _ Hc).
    destruct (existsb (N.eqb c) unsafe_chars) eqn:E.
    + apply unsafe_chars_In in E. split; [reflexivity | tauto].
    + split; [|reflexivity]. intros Hin. apply unsafe_chars_In in Hin. congruence.
  - intros c Hin. apply in_map_iff in Hin. destruct Hin as [x [Hx _]].
    destruct (existsb (N.eqb x) unsafe_chars) eqn:E; subst c.
    + intros H. apply unsafe_chars_In in H. now rewrite underscore_is_safe in H.
    + intros H. apply unsafe_chars_In in H. congruence.
  - rewrite map_map. apply map_ext. intros c.
    destruct (existsb (N.eqb c) unsafe_chars) eqn:E.
    + now rewrite underscore_is_safe.
    + now rewrite E.
Qed.

(** ** Validation *)

(** X3.  [validate_pdf] accepts a document exactly when the path exists,
    is a file, opens, and has at least one page; on a document it rejects,
    [extract_text] answers [False] and leaves the extractor as it was, so a
    document with no page always fails. *)
Theorem X3_invalid_document_fails :
  forall (self : Extractor) (pdf : Document),
    (validate_pdf pdf = true
     <-> path_exists pdf = true /\ path_isfile pdf = true
         /\ exists pages, pdfplumber_open pdf = Ok pages /\ pages <> [])
    /\ (validate_pdf pdf = false -> extract_text self pdf = (false, self))
    /\ (pdfplumber_open pdf = Ok [] -> extract_text self pdf = (false, self)).
Proof.
  intros self pdf.
  assert (Hv : validate_pdf pdf = true
               <-> path_exists pdf = true /\ path_isfile pdf = true
                   /\ exists pages, pdfplumber_open pdf = Ok pages /\ pages <> []).
  { unfold validate_pdf.
    destruct (path_exists pdf); simpl; [|split; [discriminate | intros [H _]; discriminate]].
    destruct (path_isfile pdf); simpl;
      [|split; [discriminate | intros [_ [H _]]; discriminate]].
    destruct (pdfplumber_open pdf) as [[|p pages]|e]; simpl.
    - split; [discriminate|]. intros [_ [_ [ps [H Hne]]]]. injection H as <-. now elim Hne.
    - split; [|reflexivity]. intros _. repeat split. exists (p :: pages).
      split; [reflexivity | discriminate].
    - split; [discriminate|]. intros [_ [_ [ps [H _]]]]. discriminate. }
  split; [exact Hv|]. split.
  - intros H. rewrite extract_text_run. now rewrite H.
  - intros Ho. rewrite extract_text_run.
    destruct (validate_pdf pdf) eqn:E; [|reflexivity].
    destruct (proj1 Hv eq_refl) as [_ [_ [ps [H Hne]]]].
    rewrite Ho in H. injection H as <-. now elim Hne.
Qed.

(** ** What the title detector returns *)

Lemma In_lstrip (c : char) (s : str) : In c (lstrip s) -> In c s.
Proof.
  induction s as [|d t IH]; simpl; [tauto|].
  destruct (isspace d); [intros H; right; now apply IH | tauto].
Qed.

Lemma In_rstrip (c : char) (s : str) : In c (rstrip s) -> In c s.
Proof.
  intros H. destruct (rstrip_spec s) as [w [Hw _]]. rewrite Hw.
  apply in_or_app. now left.
Qed.

Lemma In_strip (c : char) (s : str) : In c (strip s) -> In c s.
Proof. intros H. now apply In_lstrip, In_rstrip. Qed.

Lemma In_join (c : char) (sep : str) (ls : list str) :
  In c (join sep ls) -> In c sep \/ exists l, In l ls /\ In c l.
Proof.
  induction ls as [|l rest IH]; simpl; [tauto|].
  destruct rest as [|l2 rest].
  - intros H. right. exists l. auto.
  - intros H. apply in_app_or in H. destruct H as [H|H].
    + right. exists l. auto.
    + apply in_app_or in H. destruct H as [H|H]; [now left|].
      destruct (IH H) as [Hs|[l' [Hl' Hc]]]; [now left|].
      right. exists l'. split; [now right | exact Hc].
Qed.

Lemma candidate_lines_no_newline (text : str) :
  Forall (fun line => ~ In newline line) (candidate_lines text).
Proof.
  unfold candidate_lines, clean_lines. apply Forall_forall. intros l Hl.
  apply in_map_iff in Hl. destruct Hl as [raw [<- Hraw]].
  apply filter_In in Hraw. destruct Hraw as [Hraw _].
  assert (Hin : In raw (split_nl text)).
  { rewrite <- (firstn_skipn 4 (split_nl text)). apply in_or_app. now left. }
  pose proof (split_nl_no_newline text) as Hnl. rewrite Forall_forall in Hnl.
  intros Hc. apply (Hnl raw Hin). now apply In_strip.
Qed.

Lemma candidate_lines_length (text : str) : length (candidate_lines text) <= 4.
Proof.
  unfold candidate_lines.
  pose proof (clean_lines_length (firstn 4 (split_nl text))).
  pose proof (firstn_le_length 4 (split_nl text)). lia.
Qed.

Lemma detect_title_has_text (page : Page) (ti : TitleInfo) :
  detect_title page = Some ti ->
  exists text, text_for_title page = Ok (Some text).
Proof.
  unfold detect_title, detect_title_body.
  destruct (text_for_title page) as [[text|]|e]; simpl; try discriminate.
  intros _. now exists text.
Qed.

(** X4.  When [detect_title] returns a heading, the title is the first one,
    two or three candidate lines joined by single spaces and the author-info
    is the candidate line after them; both are non-empty, have no whitespace
    at either end and hold no newline, and the author-info has at least four
    characters and the author marker in it. *)
Theorem X4_detected_heading_shape :
  forall (page : Page) (ti : TitleInfo),
    detect_title page = Some ti ->
    exists (text : str) (k : nat),
      text_for_title page = Ok (Some text)
      /\ 1 <= k <= 3
      /\ title ti = join [space] (firstn k (candidate_lines text))
      /\ nth_error (candidate_lines text) k = Some (author_info ti)
      /\ Trimmed (title ti) /\ ~ In newline (title ti)
      /\ Trimmed (author_info ti) /\ ~ In newline (author_info ti)
      /\ AuthorLine (author_info ti).
Proof.
  intros page ti Hd.
  destruct (detect_title_has_text page ti Hd) as [text Ht].
  rewrite (detect_title_text page text Ht) in Hd.
  set (lines := candidate_lines text) in *.
  destruct (length lines <? 2) eqn:E; [discriminate|]. apply Nat.ltb_ge in E.
  destruct (scan_author_Some _ _ _ _ Hd) as [k [Hk [Hn [Ha [_ Htt]]]]].
  assert (HT : Forall Trimmed lines) by apply clean_lines_Trimmed.
  assert (HN : Forall (fun line => ~ In newline line) lines)
    by apply candidate_lines_no_newline.
  assert (Hne : lines <> []) by (intros H; rewrite H in E; simpl in E; lia).
  pose proof (candidate_lines_length text) as H4. fold lines in H4.
  assert (Hfirst : firstn k lines <> []).
  { destruct k; [lia|]. destruct lines; [now elim Hne | discriminate]. }
  assert (HTk : Forall Trimmed (firstn k lines)).
  { rewrite <- (firstn_skipn k lines) in HT. now apply Forall_app in HT. }
  rewrite title_is_join in Htt; [|lia | exact Hne | exact HT].
  assert (Hin : In (author_info ti) lines) by (eapply nth_error_In; eauto).
  rewrite Forall_forall in HT, HN.
  exists text, k. repeat split; try lia; try assumption.
  - rewrite Htt. apply (join_Trimmed [space] _ Hfirst HTk).
  - rewrite Htt. apply (join_Trimmed [space] _ Hfirst HTk).
  - rewrite Htt. intros Hc. apply In_join in Hc.
    destruct Hc as [[Hc|[]]|[l [Hl Hc]]]; [discriminate|].
    apply (HN l); [|exact Hc].
    rewrite <- (firstn_skipn k lines). apply in_or_app. now left.
  - apply (HT _ Hin).
  - apply (HT _ Hin).
  - apply (HN _ Hin).
  - now apply is_author_line_spec.
  - now apply is_author_line_spec.
Qed.

(** The hypothesis of X4 met on the sample heading page. *)
Lemma X4_detected_heading_witness :
  exists (text : str) (k : nat),
    text_for_title (page_of heading_text) = Ok (Some text)
    /\ 1 <= k <= 3
    /\ lit "Understanding Systems" = join [space] (firstn k (candidate_lines text))
    /\ nth_error (candidate_lines text) k = Some jane
    /\ Trimmed (lit "Understanding Systems")
    /\ ~ In newline (lit "Understanding Systems")
    /\ Trimmed jane /\ ~ In newline jane
    /\ AuthorLine jane.
Proof.
  exact (X4_detected_heading_shape (page_of heading_text)
           {| title := lit "Understanding Systems"; author_info := jane |}
           eq_refl).
Defined.

(** X5.  The detector looks at nothing below the fourth line: two pages
    whose texts have the same first four lines get the same answer, so an
    author line that comes fifth or later is never found. *)
Theorem X5_detect_title_first_four_lines :
  forall (page1 page2 : Page) (text1 text2 : str),
    text_for_title page1 = Ok (Some text1) ->
    text_for_title page2 = Ok (Some text2) ->
    firstn 4 (split_nl text1) = firstn 4 (split_nl text2) ->
    detect_title page1 = detect_title page2.
Proof.
  intros page1 page2 text1 text2 H1 H2 H4.
  rewrite (detect_title_text page1 text1 H1), (detect_title_text page2 text2 H2).
  unfold candidate_lines. now rewrite H4.
Qed.

(** The hypotheses of X5 met: an author line on the fifth line changes
    nothing. *)
Lemma X5_first_four_lines_witness :
  detect_title (page_of late_author_text) = detect_title (page_of four_lines_text)
  /\ detect_title (page_of four_lines_text) = None.
Proof.
  split; [|reflexivity].
  exact (X5_detect_title_first_four_lines
           (page_of late_author_text) (page_of four_lines_text)
           late_author_text four_lines_text eq_refl eq_refl eq_refl).
Defined.

(** ** The footer keyword and the stored texts *)

Section Keyword.

(** A marker with no whitespace in it, as ['xxx'] is. *)
Variable m : str.
Hypothesis m_text : text_only m = true.
Hypothesis m_nonempty : m <> [].

Lemma startswith_at_space (c : char) (s : str) :
  isspace c = true -> startswith m (c :: s) = false.
Proof.
  intros Hc. destruct m as [|a m'] eqn:Em; [now elim m_nonempty|].
  simpl. destruct (a =? c)%N eqn:E; [|reflexivity].
  apply N.eqb_eq in E. subst a. unfold text_only in m_text.
  simpl in m_text. now rewrite Hc in m_text.
Qed.

Lemma contains_cons (c : char) (s : str) :
  contains m s = true -> contains m (c :: s) = true.
Proof. intros H. simpl. rewrite H. apply orb_true_r. Qed.

Lemma contains_startswith (s : str) :
  startswith m s = true -> contains m s = true.
Proof. intros H. destruct s; simpl; now rewrite H. Qed.

Lemma startswith_sub_ws (m' s : str) :
  text_only m' = true ->
  startswith m' (sub_ws_from false s) = true -> startswith m' s = true.
Proof.
  revert s. induction m' as [|a m' IH]; intros s Ht; [reflexivity|].
  unfold text_only in Ht. simpl in Ht. apply andb_true_iff in Ht.
  destruct Ht as [Ha Ht]. apply negb_true_iff in Ha.
  destruct s as [|d s]; [discriminate|]. simpl.
  destruct (isspace d) eqn:Hd; simpl.
  - destruct (a =? space)%N eqn:E; [|discriminate].
    apply N.eqb_eq in E. subst a. now rewrite isspace_space in Ha.
  - rewrite !andb_true_iff. intros [E H]. split; [exact E|]. now apply IH.
Qed.

Lemma contains_sub_ws (b : bool) (s : str) :
  contains m (sub_ws_from b s) = true -> contains m s = true.
Proof.
  revert b. induction s as [|c t IH]; intros b; [destruct b; exact (fun H => H)|].
  simpl sub_ws_from. destruct (isspace c) eqn:Hc.
  - intros H. apply contains_cons. destruct b; [now apply (IH true)|].
    simpl in H. rewrite (startswith_at_space space _ isspace_space) in H.
    now apply (IH true).
  - intros H. simpl in H. apply orb_true_iff in H. destruct H as [H|H].
    + apply contains_startswith.
      apply (startswith_sub_ws m (c :: t) m_text). simpl sub_ws_from.
      now rewrite Hc.
    + apply contains_cons. now apply (IH false).
Qed.

Lemma occurs_strip (s : str) : occurs m (strip s) -> occurs m s.
Proof.
  unfold strip. intros [pre [post H]].
  destruct (lstrip_spec s) as [w [Hw _]].
  destruct (rstrip_spec (lstrip s)) as [w' [Hw' _]].
  exists (w ++ pre), (post ++ w').
  rewrite Hw, Hw', H. now rewrite <- !app_assoc.
Qed.

Lemma startswith_before_space (m' x b : str) :
  text_only m' = true ->
  startswith m' (x ++ space :: b) = true -> startswith m' x = true.
Proof.
  revert x. induction m' as [|a m' IH]; intros x Ht; [reflexivity|].
  unfold text_only in Ht. simpl in Ht. apply andb_true_iff in Ht.
  destruct Ht as [Ha Ht]. apply negb_true_iff in Ha.
  destruct x as [|c x]; simpl.
  - destruct (a =? space)%N eqn:E; [|discriminate].
    apply N.eqb_eq in E. subst a. now rewrite isspace_space in Ha.
  - rewrite !andb_true_iff. intros [E H]. split; [exact E|]. now apply IH.
Qed.

Lemma contains_around_space (a b : str) :
  contains m (a ++ space :: b) = true ->
  contains m a = true \/ contains m b = true.
Proof.
  induction a as [|c a IH]; intros H.
  - simpl in H. rewrite (startswith_at_space space _ isspace_space) in H. now right.
  - change (contains m (c :: (a ++ space :: b)) = true) in H.
    simpl in H. apply orb_true_iff in H. destruct H as [H|H].
    + left. apply contains_startswith.
      now apply (startswith_before_space m (c :: a) b m_text).
    + destruct (IH H) as [Ha|Hb]; [left; now apply contains_cons | now right].
Qed.

Lemma contains_empty : contains m [] = false.
Proof. destruct m; [now elim m_nonempty | reflexivity]. Qed.

Lemma contains_join (ls : list str) :
  contains m (join [space] ls) = true ->
  exists l, In l ls /\ contains m l = true.
Proof.
  induction ls as [|l rest IH];
    [intros H; simpl join in H; rewrite contains_empty in H; discriminate|].
  destruct rest as [|l2 rest].
  - intros H. exists l. split; [now left | exact H].
  - change (join [space] (l :: l2 :: rest))
      with (l ++ space :: join [space] (l2 :: rest)).
    intros H. destruct (contains_around_space _ _ H) as [Hl|Hr].
    + exists l. split; [now left | exact Hl].
    + destruct (IH Hr) as [l' [Hin Hc]]. exists l'. split; [now right | exact Hc].
Qed.

(** A marker that is in none of the lines is not in their normalized
    text. *)
Lemma normalize_keeps_marker_out (ls : list str) :
  (forall l, In l ls -> contains m l = false) ->
  ~ occurs m (normalize ls).
Proof.
  intros Hno Hocc. unfold normalize in Hocc. apply occurs_strip in Hocc.
  apply contains_spec in Hocc. apply contains_sub_ws in Hocc.
  destruct (contains_join _ Hocc) as [l [Hin Hc]].
  rewrite (Hno l Hin) in Hc. discriminate.
Qed.

End Keyword.

Lemma page_texts_without_keyword (page : Page) (txt : str) :
  In txt (page_texts page) -> ~ occurs footer_keyword txt.
Proof.
  unfold page_texts. destruct (text_for_body page) as [[full_text|]|e]; try tauto.
  destruct (truthy full_text && _); [|tauto].
  intros [<-|[]]. apply normalize_keeps_marker_out; [reflexivity | discriminate|].
  intros l Hl. unfold keyword_filter in Hl.
  rewrite keyword_filter_loop_filter in Hl. apply filter_In in Hl.
  destruct Hl as [_ Hk]. unfold keeps in Hk. now apply negb_true_iff in Hk.
Qed.

Lemma routed_from_pages (t cur : str) (filed : bool) (pages : list Page) (txt : str) :
  In txt (routed t cur filed pages) ->
  exists page, In page pages /\ In txt (page_texts page).
Proof.
  revert cur filed. induction pages as [|p rest IH]; intros cur filed; simpl; [tauto|].
  intros H. apply in_app_or in H. destruct H as [H|H].
  - destruct (_ && _); [|now elim H]. exists p. auto.
  - destruct (IH _ _ H) as [page [Hin Ht]]. exists page. auto.
Qed.

(** X6.  No page-text stored in a section has the footer keyword ['xxx']
    in it: joining the retained lines, collapsing whitespace and trimming
    cannot put together a keyword that no retained line holds. *)
Theorem X6_stored_text_without_keyword :
  forall (pdf : Document) (t : str) (sec : SectionData),
    Dict.get t (sections (snd (extract_text init pdf))) = Some sec ->
    Forall (fun txt => ~ occurs footer_keyword txt) (content sec).
Proof.
  intros pdf t sec Hg. rewrite registry_after_run in Hg.
  destruct (first_author t (processed_pages pdf)); [|discriminate].
  injection Hg as <-. simpl. apply Forall_forall. intros txt Hin.
  destruct (routed_from_pages _ _ _ _ _ Hin) as [page [_ Ht]].
  now apply (page_texts_without_keyword page).
Qed.

(** The hypothesis of X6 met: the footer line of the page is not in the
    stored text. *)
Lemma X6_stored_text_witness :
  Forall (fun txt => ~ occurs footer_keyword txt)
    [lit "Understanding Systems " ++ jane ++ lit " Body line"].
Proof.
  exact (X6_stored_text_without_keyword
           (document_of [page_of footer_text])
           (lit "Understanding Systems")
           {| s_title := lit "Understanding Systems";
              s_author_info := jane;
              content := [lit "Understanding Systems " ++ jane ++ lit " Body line"] |}
           eq_refl).
Defined.

(** ** Runs with one heading, and runs repeated *)

Lemma registry_keys_distinct (self : Extractor) (pdf : Document) :
  NoDup (Dict.keys (sections self)) ->
  NoDup (Dict.keys (sections (snd (extract_text self pdf)))).
Proof.
  intros Hnd. rewrite extract_text_run. destruct (validate_pdf pdf); [|exact Hnd].
  cbv zeta. cbn [snd]. now apply for_pages_keys.
Qed.

Lemma dict_single {V : Type} (d : Dict.dict V) (t : str) (v : V) :
  NoDup (Dict.keys d) ->
  Dict.get t d = Some v ->
  (forall k, k <> t -> Dict.get k d = None) ->
  d = [(t, v)].
Proof.
  intros Hnd Hg Hother. destruct d as [|[k0 v0] rest]; [discriminate|].
  assert (Hk0 : k0 = t).
  { destruct (list_eq_dec N.eq_dec k0 t) as [E|E]; [exact E|].
    specialize (Hother k0 E). simpl in Hother.
    now rewrite str_eqb_refl in Hother. }
  subst k0. simpl in Hg. rewrite str_eqb_refl in Hg. injection Hg as ->.
  destruct rest as [|[k1 v1] rest]; [reflexivity|].
  exfalso. simpl in Hnd. inversion Hnd as [|? ? Hnotin _]; subst.
  assert (Hne : k1 <> t) by (intros ->; apply Hnotin; now left).
  specialize (Hother k1 Hne). simpl in Hother.
  apply str_eqb_neq in Hne. rewrite Hne, str_eqb_refl in Hother. discriminate.
Qed.

Lemma first_author_none (t : str) (pages : list Page) :
  (forall p, In p pages -> detect_title p = None) -> first_author t pages = None.
Proof.
  induction pages as [|p rest IH]; intros Hno; [reflexivity|].
  simpl. rewrite (Hno p (or_introl eq_refl)). apply IH.
  intros q Hq. apply Hno. now right.
Qed.

Lemma routed_no_titles (t cur : str) (pages : list Page) :
  (forall p, In p pages -> detect_title p = None) ->
  routed t cur true pages
  = if str_eqb cur t then flat_map page_texts pages else [].
Proof.
  induction pages as [|p rest IH]; intros Hno; simpl.
  - now destruct (str_eqb cur t).
  - unfold title_after, filed_after. rewrite (Hno p (or_introl eq_refl)).
    rewrite IH by (intros q Hq; apply Hno; now right).
    simpl. destruct (str_eqb cur t); [reflexivity|]. reflexivity.
Qed.

(** X7.  A document whose first page has a heading and whose other pages
    have none ends as one section: its title and author-info are those of
    the first page, its content the texts of all the pages that contribute
    one, in page order; and the run reports success. *)
Theorem X7_single_heading_single_section :
  forall (pdf : Document) (first : Page) (rest : list Page) (ti : TitleInfo),
    processed_pages pdf = first :: rest ->
    detect_title first = Some ti ->
    (forall p, In p rest -> detect_title p = None) ->
    fst (extract_text init pdf) = true
    /\ sections (snd (extract_text init pdf))
       = [(title ti,
           {| s_title := title ti;
              s_author_info := author_info ti;
              content := flat_map page_texts (first :: rest) |})].
Proof.
  intros pdf first rest ti Hp Hd Hno.
  assert (Hs : sections (snd (extract_text init pdf))
               = [(title ti,
                   {| s_title := title ti;
                      s_author_info := author_info ti;
                      content := flat_map page_texts (first :: rest) |})]).
  { apply dict_single.
    - apply registry_keys_distinct. constructor.
    - rewrite registry_after_run, Hp. simpl.
      unfold title_after, filed_after. rewrite Hd, str_eqb_refl. simpl.
      rewrite (routed_no_titles _ _ _ Hno), str_eqb_refl. reflexivity.
    - intros k Hk. rewrite registry_after_run, Hp. simpl. rewrite Hd.
      assert (E : str_eqb (title ti) k = false) by (apply str_eqb_neq; congruence).
      rewrite E. now rewrite (first_author_none k rest Hno). }
  split; [|exact Hs].
  rewrite extract_text_run in Hs |- *.
  destruct (validate_pdf pdf); [|discriminate].
  cbv zeta in Hs |- *. cbn [fst snd] in Hs |- *. now rewrite Hs.
Qed.

(** The hypotheses of X7 met: a heading page and two plain pages give one
    section with three texts. *)
Lemma X7_single_heading_witness :
  fst (extract_text init
         (document_of [page_of heading_text; page_of plain_text; page_of plain_text]))
  = true
  /\ sections (snd (extract_text init
         (document_of [page_of heading_text; page_of plain_text; page_of plain_text])))
     = [(lit "Understanding Systems",
         {| s_title := lit "Understanding Systems";
            s_author_info := jane;
            content :=
              flat_map page_texts
                [page_of heading_text; page_of plain_text; page_of plain_text] |})].
Proof.
  refine (X7_single_heading_single_section
            (document_of [page_of heading_text; page_of plain_text; page_of plain_text])
            (page_of heading_text) [page_of plain_text; page_of plain_text]
            {| title := lit "Understanding Systems"; author_info := jane |}
            eq_refl eq_refl _).
  intros p [<-|[<-|[]]]; reflexivity.
Defined.

(** X8.  The registry lives on the extractor: running [extract_text] again
    on the same document appends every section's texts a second time, and
    adds no section.  (Stated for documents on which the default title
    itself is not detected as a heading.) *)
Theorem X8_second_run_appends_again :
  forall (pdf : Document) (t : str),
    first_author default_title (processed_pages pdf) = None ->
    Dict.get t
      (sections (snd (extract_text (snd (extract_text init pdf)) pdf)))
    = option_map (fun s => extend s (content s))
        (Dict.get t (sections (snd (extract_text init pdf)))).
Proof.
  intros pdf t Hdef.
  pose proof (registry_after_run pdf t) as Ht.
  pose proof (registry_after_run pdf default_title) as Hd0. rewrite Hdef in Hd0.
  rewrite (extract_text_run (snd (extract_text init pdf)) pdf).
  destruct (validate_pdf pdf) eqn:Ev.
  - cbv zeta. cbn [snd]. rewrite for_pages_get. cbv zeta.
    rewrite mem_get, Hd0, Ht.
    destruct (first_author t (processed_pages pdf)); reflexivity.
  - cbn [snd]. rewrite Ht, (processed_pages_invalid pdf Ev). reflexivity.
Qed.

(** The hypothesis of X8 met: after two runs the sample section holds its
    text twice. *)
Lemma X8_second_run_witness :
  Dict.get (lit "Understanding Systems")
    (sections (snd (extract_text
                      (snd (extract_text init (document_of [page_of heading_text])))
                      (document_of [page_of heading_text]))))
  = option_map (fun s => extend s (content s))
      (Dict.get (lit "Understanding Systems")
         (sections (snd (extract_text init (document_of [page_of heading_text]))))).
Proof.
  exact (X8_second_run_appends_again (document_of [page_of heading_text])
           (lit "Understanding Systems") eq_refl).
Defined.

(** ** Blank texts *)

Lemma lstrip_blank (s : str) : forallb isspace (lstrip s) = forallb isspace s.
Proof.
  induction s as [|c t IH]; [reflexivity|].
  simpl. destruct (isspace c) eqn:Hc; [exact IH|]. simpl. now rewrite Hc.
Qed.

Lemma rstrip_empty_iff (s : str) : rstrip s = [] <-> forallb isspace s = true.
Proof.
  induction s as [|c t IH]; [simpl; tauto|].
  simpl. destruct (rstrip t) as [|d r].
  - destruct (isspace c); simpl.
    + split; [intros _; now apply IH | reflexivity].
    + split; discriminate.
  - split; [discriminate|]. rewrite andb_true_iff. intros [_ H].
    apply IH in H. discriminate.
Qed.

Lemma strip_empty_iff (s : str) : strip s = [] <-> forallb isspace s = true.
Proof. unfold strip. now rewrite rstrip_empty_iff, lstrip_blank. Qed.

Lemma sub_ws_from_blank (b : bool) (s : str) :
  forallb isspace (sub_ws_from b s) = forallb isspace s.
Proof.
  revert b. induction s as [|c t IH]; intros b; [reflexivity|].
  simpl. destruct (isspace c) eqn:Hc.
  - destruct b; simpl; now rewrite IH.
  - simpl. now rewrite Hc.
Qed.

Lemma join_blank (ls : list str) :
  forallb isspace (join [space] ls) = forallb (forallb isspace) ls.
Proof.
  induction ls as [|l rest IH]; [reflexivity|].
  destruct rest as [|l2 rest].
  - simpl. now rewrite andb_true_r.
  - change (join [space] (l :: l2 :: rest))
      with (l ++ [space] ++ join [space] (l2 :: rest)).
    rewrite !forallb_app, IH. reflexivity.
Qed.

Lemma In_join_intro (c : char) (sep : str) (ls : list str) (l : str) :
  In l ls -> In c l -> In c (join sep ls).
Proof.
  induction ls as [|l0 rest IH]; [intros []|].
  intros Hl Hc. destruct rest as [|l2 rest].
  - destruct Hl as [->|[]]. exact Hc.
  - change (join sep (l0 :: l2 :: rest)) with (l0 ++ sep ++ join sep (l2 :: rest)).
    apply in_or_app. destruct Hl as [->|Hl]; [now left|].
    right. apply in_or_app. right. now apply IH.
Qed.

Lemma split_nl_blank (s : str) :
  forallb isspace s = true -> forallb (forallb isspace) (split_nl s) = true.
Proof.
  intros Hs. apply forallb_forall. intros l Hl. apply forallb_forall. intros c Hc.
  rewrite forallb_forall in Hs. apply Hs.
  rewrite <- (join_split_nl s). now apply (In_join_intro c [newline] _ l).
Qed.

Lemma blank_line_kept (l : str) : forallb isspace l = true -> keeps l = true.
Proof.
  intros Hl. unfold keeps. apply negb_true_iff, not_true_iff_false.
  intros Hc. apply contains_spec in Hc. destruct Hc as [pre [post ->]].
  rewrite forallb_forall in Hl.
  assert (H : isspace 120%N = true).
  { apply Hl. apply in_or_app. right. now left. }
  discriminate.
Qed.

(** X9.  The normalized text of some lines is empty exactly when the lines
    hold nothing but whitespace.  A page whose text is not empty and is all
    whitespace therefore does contribute a text, the empty one. *)
Theorem X9_normalize_empty_iff_blank :
  (forall lines : list str,
      normalize lines = []
      <-> Forall (fun line => forallb isspace line = true) lines)
  /\ (forall (page : Page) (full_text : str),
         text_for_body page = Ok (Some full_text) ->
         full_text <> [] ->
         forallb isspace full_text = true ->
         page_texts page = [[]]).
Proof.
  assert (H : forall lines : list str,
             normalize lines = []
             <-> Forall (fun line => forallb isspace line = true) lines).
  { intros lines. unfold normalize, sub_ws.
    rewrite strip_empty_iff, sub_ws_from_blank, join_blank.
    rewrite forallb_forall, Forall_forall. reflexivity. }
  split; [exact H|].
  intros page full_text Ht Hne Hb. unfold page_texts. rewrite Ht.
  pose proof (split_nl_blank full_text Hb) as Hlines.
  assert (Hk : keyword_filter (split_nl full_text) = split_nl full_text).
  { unfold keyword_filter. rewrite keyword_filter_loop_filter. simpl.
    apply forallb_filter_id. apply forallb_forall. intros l Hl.
    apply blank_line_kept. rewrite forallb_forall in Hlines. now apply Hlines. }
  rewrite Hk.
  assert (Hn : normalize (split_nl full_text) = []).
  { apply H. apply Forall_forall. rewrite forallb_forall in Hlines. exact Hlines. }
  rewrite Hn. pose proof (split_nl_nonempty full_text) as Hs.
  destruct full_text; [now elim Hne|]. destruct (split_nl _); [now elim Hs|].
  reflexivity.
Qed.

(** ** The order of the sections, and how they grow *)

Lemma mem_keys {V : Type} (k : str) (d : Dict.dict V) :
  Dict.mem k d = existsb (str_eqb k) (Dict.keys d).
Proof.
  unfold Dict.mem. induction d as [|[k' v] rest IH]; [reflexivity|].
  simpl. destruct (str_eqb k k'); [reflexivity | exact IH].
Qed.

Lemma loop_body_keys_order (self : Extractor) (cur : str) (page : Page) :
  Dict.keys (sections (fst (loop_body (self, cur) page)))
  = add_new (Dict.keys (sections self))
      (match detect_title page with Some ti => [title ti] | None => [] end).
Proof.
  unfold loop_body.
  assert (H : Dict.keys (sections (fst (title_step (self, cur) page)))
              = add_new (Dict.keys (sections self))
                  (match detect_title page with
                   | Some ti => [title ti]
                   | None => []
                   end)).
  { unfold title_step. destruct (detect_title page) as [ti|]; [|reflexivity].
    simpl. rewrite <- mem_keys, mem_get.
    destruct (Dict.get (title ti) (sections self)) eqn:E; simpl; [reflexivity|].
    now rewrite (keys_setitem_new _ _ _ E). }
  destruct (title_step (self, cur) page) as [self1 cur1]. simpl in H.
  now rewrite body_keys.
Qed.

Lemma add_new_app (seen a b : list str) :
  add_new seen (a ++ b) = add_new (add_new seen a) b.
Proof.
  revert seen. induction a as [|t a IH]; intros seen; [reflexivity|].
  simpl. destruct (existsb (str_eqb t) seen); apply IH.
Qed.

Lemma for_pages_keys_order (pages : list Page) (self : Extractor) (cur : str) :
  Dict.keys (sections (fst (for_pages (self, cur) pages)))
  = add_new (Dict.keys (sections self)) (detected_titles pages).
Proof.
  revert self cur. induction pages as [|page rest IH]; intros self cur;
    [reflexivity|].
  unfold for_pages. simpl fold_left.
  pose proof (loop_body_keys_order self cur page) as Hk.
  destruct (loop_body (self, cur) page) as [self1 cur1]. simpl in Hk.
  change (fold_left loop_body rest (self1, cur1)) with (for_pages (self1, cur1) rest).
  rewrite IH, Hk. unfold detected_titles. simpl flat_map.
  now rewrite add_new_app.
Qed.

(** X10.  The sections stand in the registry in the order in which their
    titles were first detected, each title once; with X2 this is the order in
    which the files are written. *)
Theorem X10_sections_in_detection_order :
  forall pdf : Document,
    Dict.keys (sections (snd (extract_text init pdf)))
    = add_new [] (detected_titles (processed_pages pdf)).
Proof.
  intros pdf. rewrite extract_text_run. destruct (validate_pdf pdf) eqn:Ev.
  - cbv zeta. cbn [snd]. apply for_pages_keys_order.
  - now rewrite (processed_pages_invalid pdf Ev).
Qed.

(** X11.  Whatever the state of the run, processing more pages removes no
    section, keeps every section's title and author-info, and only appends
    to its content. *)
Theorem X11_sections_only_grow :
  forall (self : Extractor) (cur : str) (before after : list Page)
         (t : str) (s : SectionData),
    Dict.get t (sections (fst (for_pages (self, cur) before))) = Some s ->
    exists more : list str,
      Dict.get t (sections (fst (for_pages (self, cur) (before ++ after))))
      = Some {| s_title := s_title s;
                s_author_info := s_author_info s;
                content := content s ++ more |}.
Proof.
  intros self cur before after t s Hs. rewrite for_pages_app.
  destruct (for_pages (self, cur) before) as [self1 cur1]. simpl in Hs.
  rewrite for_pages_get. cbv zeta. rewrite Hs.
  eexists. reflexivity.
Qed.

(** The hypothesis of X11 met: the section made by the first sample page
    is there after a second page, with that page's text appended. *)
Lemma X11_sections_only_grow_witness :
  exists more : list str,
    Dict.get (lit "Understanding Systems")
      (sections (fst (for_pages (init, default_title)
                        ([page_of heading_text] ++ [page_of plain_text]))))
    = Some {| s_title := lit "Understanding Systems";
              s_author_info := jane;
              content :=
                [lit "Understanding Systems " ++ jane ++ lit " Body line"] ++ more |}.
Proof.
  exact (X11_sections_only_grow init default_title
           [page_of heading_text] [page_of plain_text]
           (lit "Understanding Systems")
           {| s_title := lit "Understanding Systems";
              s_author_info := jane;
              content := [lit "Understanding Systems " ++ jane ++ lit " Body line"] |}
           eq_refl).
Defined.

(** ** The flat extractor as a whole *)

Module FlatRun.
Import Flat FlatSpec FlatSamples.

Lemma positional_filter_loop_raises (page : Page) (hh fh : Q)
    (lines filtered_lines : list str) (line : str) (e : exn) :
  In line lines -> search page line = Raise e ->
  exists e', positional_filter_loop page hh fh lines filtered_lines = Raise e'.
Proof.
  revert filtered_lines. induction lines as [|l rest IH]; intros acc Hin Hs;
    [now elim Hin|].
  simpl. destruct (search page l) as [matches|e0] eqn:El.
  - destruct Hin as [->|Hin]; [congruence|]. simpl.
    destruct matches as [|top others]; [now apply IH|].
    destruct (ltb hh top && ltb top fh); now apply IH.
  - now exists e0.
Qed.

Section Product.
Variable mul : Q -> Q -> Q.

Lemma fold_loop_body (self : Extractor) (pages : list Page) (extracted_text : list str) :
  fold_left (loop_body mul self) pages extracted_text
  = extracted_text ++ flat_map (contribution mul self) pages.
Proof.
  revert extracted_text. induction pages as [|page rest IH]; intros acc; simpl.
  - now rewrite app_nil_r.
  - rewrite IH. unfold loop_body, contribution.
    destruct (try_except (page_body mul self page) None).
    + now rewrite <- app_assoc.
    + reflexivity.
Qed.

(** X12.  When the lookup raises on any line of a page, the flat extractor
    takes nothing from that page, whatever its other lines are: the texts
    extracted so far stay as they are. *)
Theorem X12_raising_lookup_drops_page :
  forall (self : Extractor) (page : Page) (full_text line : str) (e : exn)
         (extracted_text : list str),
    page_extract_text page = Ok (Some full_text) ->
    In line (split_nl full_text) ->
    search page line = Raise e ->
    loop_body mul self extracted_text page = extracted_text.
Proof.
  intros self page full_text line e acc Ht Hin Hs.
  unfold loop_body, page_body. rewrite Ht. simpl.
  destruct (truthy full_text); simpl; [|reflexivity].
  unfold positional_filter.
  destruct (positional_filter_loop_raises page (header_height mul self page)
              (footer_height mul self page) _ [] line e Hin Hs) as [e' ->].
  reflexivity.
Qed.

(** X13.  The flat [extract_text] gives the texts that the pages
    contribute, in page order, joined by blank lines; it gives [None] exactly
    when the document is rejected or no page contributes a text. *)
Theorem X13_flat_extract_text_joins_pages :
  forall (self : Extractor) (pdf : Document),
    (forall s, extract_text mul self pdf = Some s ->
       exists pages,
         pdfplumber_open pdf = Ok pages
         /\ s = join [newline; newline] (flat_map (contribution mul self) pages))
    /\ (extract_text mul self pdf = None
        <-> validate_pdf pdf = false
            \/ exists pages,
                 pdfplumber_open pdf = Ok pages
                 /\ flat_map (contribution mul self) pages = []).
Proof.
  intros self pdf. unfold extract_text.
  destruct (validate_pdf pdf) eqn:Ev; simpl.
  - destruct (pdfplumber_open pdf) as [pages|e] eqn:Eo; simpl.
    + rewrite fold_loop_body. simpl.
      destruct (flat_map (contribution mul self) pages) as [|t ts] eqn:Ef;
        cbn [truthy negb].
      * split; [discriminate|]. split; [|reflexivity].
        intros _. right. now exists pages.
      * split.
        -- intros s H. injection H as <-. exists pages. now rewrite Ef.
        -- split; [discriminate|]. intros [H|[ps [H1 H2]]]; [discriminate|].
           injection H1 as <-. congruence.
    + unfold validate_pdf in Ev. rewrite Eo in Ev.
      destruct (path_exists pdf), (path_isfile pdf); discriminate.
  - split; [discriminate|]. split; [now left | reflexivity].
Qed.

(** X14.  A page whose text is a non-empty string and whose lookups all
    return contributes the normalized text of its lines in the band, and
    nothing when no line is in the band; a page whose text is [None] or
    empty contributes nothing. *)
Theorem X14_page_contribution :
  forall (self : Extractor) (page : Page),
    match page_extract_text page with
    | Ok (Some (c :: text)) =>
        lookups_return page (split_nl (c :: text)) ->
        contribution mul self page
        = match filter (in_band page (header_height mul self page)
                          (footer_height mul self page))
                  (split_nl (c :: text)) with
          | [] => []
          | kept => [normalize kept]
          end
    | _ => contribution mul self page = []
    end.
Proof.
  intros self page. unfold contribution, page_body.
  destruct (page_extract_text page) as [[[|c text]|]|e]; try reflexivity.
  intros Hret. simpl bind. cbn [truthy negb]. unfold positional_filter.
  rewrite (FlatFacts.positional_filter_loop_returns page _ _ _ [] Hret).
  simpl. now destruct (filter _ _).
Qed.

End Product.

(** The sample page, whose lookups all return, contributes its body
    line. *)
Example sample_page_contribution :
  contribution Qmult init sample_page = [lit "Body text"].
Proof. vm_compute. reflexivity. Qed.

(** The hypotheses of X12 met: the sample body line is in the band, the
    lookup of the line after it raises, and the page adds nothing. *)
Lemma X12_raising_lookup_witness :
  in_band raising_page (header_height Qmult init raising_page)
    (footer_height Qmult init raising_page) (lit "Body text") = true
  /\ loop_body Qmult init [lit "Earlier page"] raising_page = [lit "Earlier page"].
Proof.
  split; [reflexivity|].
  exact (X12_raising_lookup_drops_page Qmult init raising_page raising_text
           (lit "(continued") LibraryError [lit "Earlier page"]
           eq_refl (or_intror (or_introl eq_refl)) eq_refl).
Defined.

End FlatRun.

(** * The title detector against the lines of the page *)

(** ** Lines and cleaning, said independently, are what the code computes *)

Lemma split_nl_single (l : str) : ~ In newline l -> split_nl l = [l].
Proof.
  induction l as [|c t IH]; intros Hn; [reflexivity|].
  simpl. destruct (c =? newline)%N eqn:E.
  - apply N.eqb_eq in E. elim Hn. now left.
  - rewrite IH; [reflexivity|]. intros H. apply Hn. now right.
Qed.

Lemma split_nl_app (a b : str) :
  split_nl (a ++ newline :: b) = split_nl a ++ split_nl b.
Proof.
  induction a as [|c a IH]; [reflexivity|].
  change ((c :: a) ++ newline :: b) with (c :: (a ++ newline :: b)).
  simpl split_nl. rewrite IH. destruct (c =? newline)%N; [reflexivity|].
  pose proof (split_nl_nonempty a) as Hne.
  destruct (split_nl a) as [|l ls]; [now elim Hne | reflexivity].
Qed.

Lemma split_nl_join (raws : list str) :
  raws <> [] -> (forall raw, In raw raws -> ~ In newline raw) ->
  split_nl (join [newline] raws) = raws.
Proof.
  induction raws as [|l rest IH]; intros Hne Hn; [now elim Hne|].
  destruct rest as [|l2 rest].
  - apply split_nl_single, Hn. now left.
  - change (join [newline] (l :: l2 :: rest))
      with (l ++ newline :: join [newline] (l2 :: rest)).
    rewrite split_nl_app, split_nl_single by (apply Hn; now left).
    rewrite IH; [reflexivity | discriminate|].
    intros raw Hraw. apply Hn. now right.
Qed.

Lemma LinesOf_split_nl (text : str) (raws : list str) :
  LinesOf text raws -> raws = split_nl text.
Proof.
  intros [Hne [Hn <-]]. symmetry. now apply split_nl_join.
Qed.

Lemma split_nl_LinesOf (text : str) : LinesOf text (split_nl text).
Proof.
  split; [apply split_nl_nonempty|]. split; [|apply join_split_nl].
  pose proof (split_nl_no_newline text) as H. rewrite Forall_forall in H. exact H.
Qed.

Lemma Blank_forallb (s : str) : Blank s <-> forallb isspace s = true.
Proof. unfold Blank. now rewrite forallb_forall. Qed.

Lemma lstrip_past_blank (w x : str) : Blank w -> lstrip (w ++ x) = lstrip x.
Proof.
  induction w as [|c w IH]; intros Hw; [reflexivity|].
  simpl. rewrite (Hw c (or_introl eq_refl)). apply IH.
  intros d Hd. apply Hw. now right.
Qed.

Lemma rstrip_past_blank (x w : str) : Blank w -> rstrip (x ++ w) = rstrip x.
Proof.
  intros Hw. induction x as [|c x IH].
  - simpl. apply rstrip_empty_iff. now apply Blank_forallb.
  - simpl. now rewrite IH.
Qed.

Lemma StrippedTo_strip (raw s : str) : StrippedTo raw s -> strip raw = s.
Proof.
  intros [w1 [w2 [-> [H1 [H2 [[c [t [Es Hc]]] [t' [d [Es' Hd]]]]]]]]].
  unfold strip. rewrite (lstrip_past_blank w1 _ H1).
  assert (El : lstrip (s ++ w2) = s ++ w2).
  { rewrite Es. simpl. now rewrite Hc. }
  rewrite El, (rstrip_past_blank s w2 H2), Es'.
  assert (Ed : rstrip [d] = [d]) by (simpl; now rewrite Hd).
  rewrite rstrip_app; rewrite Ed; [reflexivity | discriminate].
Qed.

Lemma strip_StrippedTo (raw : str) : strip raw <> [] -> StrippedTo raw (strip raw).
Proof.
  intros Hne. unfold strip in *.
  destruct (lstrip_spec raw) as [w1 [E1 [B1 _]]].
  destruct (rstrip_spec (lstrip raw)) as [w2 [E2 [B2 Hlast]]].
  exists w1, w2. split; [now rewrite <- E2|].
  split; [now apply Blank_forallb|]. split; [now apply Blank_forallb|]. split.
  - destruct (strip_Trimmed raw Hne) as [H _]. exact H.
  - destruct Hlast as [H|[r [c [H Hc]]]]; [now elim Hne|]. now exists r, c.
Qed.

Lemma Cleaned_clean_lines (raws lines : list str) :
  Cleaned raws lines -> lines = clean_lines raws.
Proof.
  unfold clean_lines. intros H.
  induction H as [|raw raws lines Hb Hrest IH|raw raws s lines Hs Hrest IH].
  - reflexivity.
  - simpl. assert (E : strip raw = []).
    { apply strip_empty_iff. now apply Blank_forallb. }
    rewrite E. exact IH.
  - pose proof (StrippedTo_strip raw s Hs) as E.
    destruct Hs as [_ [_ [_ [_ [_ [[c [t [-> _]]] _]]]]]].
    simpl. rewrite E. simpl. now rewrite E, <- IH.
Qed.

Lemma clean_lines_Cleaned (raws : list str) : Cleaned raws (clean_lines raws).
Proof.
  unfold clean_lines. induction raws as [|raw raws IH]; [constructor|].
  simpl. destruct (strip raw) as [|c t] eqn:E; simpl.
  - apply Cleaned_drop; [|exact IH].
    apply Blank_forallb, strip_empty_iff. exact E.
  - apply Cleaned_keep; [|exact IH].
    apply strip_StrippedTo. rewrite E. discriminate.
Qed.

(** Every text has its lines and their cleaning, and only one of each. *)
Lemma lines_exist_unique (text : str) :
  exists raws lines,
    LinesOf text raws /\ Cleaned (firstn 4 raws) lines
    /\ forall raws' lines',
         LinesOf text raws' -> Cleaned (firstn 4 raws') lines' ->
         raws' = raws /\ lines' = lines.
Proof.
  exists (split_nl text), (clean_lines (firstn 4 (split_nl text))).
  split; [apply split_nl_LinesOf|]. split; [apply clean_lines_Cleaned|].
  intros raws' lines' HL HC. apply LinesOf_split_nl in HL. subst raws'.
  split; [reflexivity | now apply Cleaned_clean_lines].
Qed.

(** C2.  Let [raws] be the lines of a page's raw text and [lines] the
    first four of them at most, each stripped and the empty ones dropped,
    lines and cleaning being said without the code's functions.  The
    detector returns the pair [(t, a)] exactly when at least two lines remain
    and there is a first index [i >= 1] whose line has length at least four
    and the author marker in it, [a] being that line and [t] the lines before
    it joined by single spaces; and it returns nothing exactly when there is
    no such index. *)
Theorem C2_detect_title_first_author_line :
  forall (page : Page) (text : str) (raws lines : list str),
    text_for_title page = Ok (Some text) ->
    LinesOf text raws ->
    Cleaned (firstn 4 raws) lines ->
    (forall t a : str,
        detect_title page = Some {| title := t; author_info := a |}
        <-> 2 <= length lines
            /\ exists i : nat,
                 1 <= i
                 /\ nth_error lines i = Some a
                 /\ (4 <= length a /\ occurs author_marker a)
                 /\ (forall j l, 1 <= j < i -> nth_error lines j = Some l ->
                                 ~ (4 <= length l /\ occurs author_marker l))
                 /\ t = join [space] (firstn i lines))
    /\ (detect_title page = None
        <-> ~ (2 <= length lines
               /\ exists i a, 1 <= i /\ nth_error lines i = Some a
                              /\ 4 <= length a /\ occurs author_marker a)).
Proof.
  intros page text raws lines Ht HL HC.
  apply LinesOf_split_nl in HL. subst raws.
  apply Cleaned_clean_lines in HC. subst lines.
  exact (detect_title_on_candidate_lines page text Ht).
Qed.

Lemma heading_lines_of : LinesOf heading_text heading_lines.
Proof.
  split; [discriminate|]. split; [|reflexivity].
  intros raw Hraw Hnl.
  assert (H : existsb (fun l => existsb (N.eqb newline) l) heading_lines = true).
  { apply existsb_exists. exists raw. split; [exact Hraw|].
    apply existsb_exists. exists newline. split; [exact Hnl | apply N.eqb_refl]. }
  discriminate.
Qed.

Lemma heading_lines_cleaned : Cleaned (firstn 4 heading_lines) heading_lines.
Proof. exact (clean_lines_Cleaned (firstn 4 heading_lines)). Qed.

(** The hypotheses of C2 met on the sample heading page: its three lines
    are their own cleaning, and the heading is found at the second one. *)
Lemma C2_detect_title_witness :
  (forall t a : str,
      detect_title (page_of heading_text) = Some {| title := t; author_info := a |}
      <-> 2 <= length heading_lines
          /\ exists i : nat,
               1 <= i
               /\ nth_error heading_lines i = Some a
               /\ (4 <= length a /\ occurs author_marker a)
               /\ (forall j l, 1 <= j < i -> nth_error heading_lines j = Some l ->
                               ~ (4 <= length l /\ occurs author_marker l))
               /\ t = join [space] (firstn i heading_lines))
  /\ (detect_title (page_of heading_text) = None
      <-> ~ (2 <= length heading_lines
             /\ exists i a, 1 <= i /\ nth_error heading_lines i = Some a
                            /\ 4 <= length a /\ occurs author_marker a)).
Proof.
  exact (C2_detect_title_first_author_line (page_of heading_text) heading_text
           heading_lines heading_lines eq_refl
           heading_lines_of heading_lines_cleaned).
Defined.

(** * The positional filter on every page *)

Module FlatBand.
Import Flat FlatSpec FlatSamples.

(** The lookups of a page's lines all return, or one of them raises. *)
Lemma lookups_return_or_raise (page : Page) (lines : list str) :
  lookups_return page lines
  \/ exists line e, In line lines /\ search page line = Raise e.
Proof.
  induction lines as [|l rest IH].
  - left. intros line [].
  - destruct (search page l) as [matches|e] eqn:El.
    + destruct IH as [Hret|[line [e [Hin Hs]]]].
      * left. intros line [<-|Hin]; [now exists matches | now apply Hret].
      * right. exists line, e. split; [now right | exact Hs].
    + right. exists l, e. split; [now left | exact El].
Qed.

Section Product.
Variable mul : Q -> Q -> Q.

(** C3, as the code has it.  On a page where no position lookup raises,
    a line is retained exactly when it is a line of the page, its lookup
    finds a match and the top offset [t] of the first match satisfies
    [header_height < t < footer_height], the two heights being the products
    of the page height with the thresholds; the retained lines keep the order
    of the page, and a line whose lookup finds nothing is dropped.  On a page
    where the lookup of some line raises, the filter raises and the page
    contributes nothing, so none of its lines is retained.  Every page is of
    one of the two kinds. *)
Theorem C3_band_filter_unless_lookup_raises :
  forall (self : Extractor) (page : Page) (full_text : str),
    (lookups_return page (split_nl full_text) ->
     exists filtered_lines,
       positional_filter mul self page full_text = Ok filtered_lines
       /\ filtered_lines
          = filter (in_band page (header_height mul self page)
                      (footer_height mul self page))
              (split_nl full_text)
       /\ Subseq filtered_lines (split_nl full_text)
       /\ (forall line,
              In line filtered_lines
              <-> In line (split_nl full_text)
                  /\ exists t others,
                       search page line = Ok (t :: others)
                       /\ (mul (height page) (header_threshold self) < t)%Q
                       /\ (t < mul (height page) (footer_threshold self))%Q)
       /\ (forall line, search page line = Ok [] -> ~ In line filtered_lines))
    /\ (forall line e,
           In line (split_nl full_text) ->
           search page line = Raise e ->
           (exists e', positional_filter mul self page full_text = Raise e')
           /\ (page_extract_text page = Ok (Some full_text) ->
               contribution mul self page = []))
    /\ (lookups_return page (split_nl full_text)
        \/ exists line e,
             In line (split_nl full_text) /\ search page line = Raise e).
Proof.
  intros self page full_text. split; [|split].
  - apply FlatFacts.positional_filter_band.
  - intros line e Hin Hs.
    destruct (FlatRun.positional_filter_loop_raises page
                (header_height mul self page) (footer_height mul self page)
                _ [] line e Hin Hs) as [e' He'].
    split; [now exists e'|].
    intros Ht. unfold contribution, page_body. rewrite Ht. simpl bind.
    destruct (truthy full_text); [|reflexivity].
    cbn [negb]. unfold positional_filter. now rewrite He'.
  - apply lookups_return_or_raise.
Qed.

End Product.

(** C3 as stated fails.  On the sample page with a raising lookup, the
    line "Body text" is a line of the page, its lookup finds it at offset 50,
    which lies between the header height 20 and the footer height 80, and the
    line is not retained: the filter raises on the next line and the page
    contributes nothing. *)
Lemma C3_in_band_line_lost_when_lookup_raises :
  In (lit "Body text") (split_nl raising_text)
  /\ search raising_page (lit "Body text") = Ok [50%Q]
  /\ (header_height Qmult init raising_page < 50)%Q
  /\ (50 < footer_height Qmult init raising_page)%Q
  /\ positional_filter Qmult init raising_page raising_text = Raise LibraryError
  /\ contribution Qmult init raising_page = [].
Proof.
  split; [now left|]. split; [reflexivity|]. split; [reflexivity|].
  split; [reflexivity|]. split; vm_compute; reflexivity.
Qed.

(** Both kinds of page at hand: the sample page, whose lookups all
    return, keeps its body line; the page with a raising lookup keeps
    nothing. *)
Lemma C3_band_filter_witness :
  (exists filtered_lines,
     positional_filter Qmult init sample_page sample_text = Ok filtered_lines
     /\ filtered_lines
        = filter (in_band sample_page (header_height Qmult init sample_page)
                    (footer_height Qmult init sample_page))
            (split_nl sample_text)
     /\ Subseq filtered_lines (split_nl sample_text)
     /\ (forall line,
            In line filtered_lines
            <-> In line (split_nl sample_text)
                /\ exists t others,
                     search sample_page line = Ok (t :: others)
                     /\ (Qmult (height sample_page) (header_threshold init) < t)%Q
                     /\ (t < Qmult (height sample_page) (footer_threshold init))%Q)
     /\ (forall line, search sample_page line = Ok [] -> ~ In line filtered_lines))
  /\ ((exists e', positional_filter Qmult init raising_page raising_text = Raise e')
      /\ (page_extract_text raising_page = Ok (Some raising_text) ->
          contribution Qmult init raising_page = [])).
Proof.
  split.
  - exact (proj1 (C3_band_filter_unless_lookup_raises Qmult init sample_page
                    sample_text) FlatFacts.sample_lookups_return).
  - exact (proj1 (proj2 (C3_band_filter_unless_lookup_raises Qmult init
                           raising_page raising_text))
             (lit "(continued") LibraryError
             (or_intror (or_introl eq_refl)) eq_refl).
Defined.

End FlatBand.

(** * The writer, step by step *)

Module WriterFacts.
Import Segmented SegmentedSpec.




End WriterFacts.
